(** * Checkout detection and idempotent actuation pipeline

    A shallow embedding of the calendar poller ([calendar_poller.py]), the
    token manager ([auth.py]), the Nest device client ([nest_controller.py])
    and the orchestrator ([main.py]), together with the properties of the
    specification that concern them.

    Conventions of the embedding.
    - An instant is an integer number of microseconds since the Unix epoch
      (the resolution of Python's [datetime]); a [timedelta] is an integer
      number of microseconds.  The representable range of [datetime] (years
      1 to 9999) is not modelled: arithmetic on instants never overflows.
    - Text is ASCII text ([string]); case conversion acts on the 26 letters.
    - Everything the program reads from outside (the clock, the HTTP replies
      of the feed, the token endpoint and the device API) comes from a
      [World]: a family of oracles, each consumed in order by a counter.
    - Exceptions are the subclasses of [Exception] that the libraries in use
      raise; cancellation and interpreter exits are not modelled. *)

From stdpp Require Import gmap strings list fin_maps.
From Stdlib Require Import ZArith Lia Ascii.

Local Open Scope Z_scope.

(** ** Time *)

Module Time.

Definition MICROSECOND : Z := 1.
Definition SECOND : Z := 1000000.
Definition MINUTE : Z := 60 * SECOND.
Definition HOUR : Z := 60 * MINUTE.
Definition DAY : Z := 24 * HOUR.

(** [timedelta(minutes=n)] and [timedelta(hours=n)]. *)
Definition timedelta_minutes (n : Z) : Z := n * MINUTE.
Definition timedelta_hours (n : Z) : Z := n * HOUR.

(** A [datetime]: the reading of the wall clock in microseconds since
    1970-01-01T00:00:00 on that wall clock, and the offset of the wall
    clock from UTC ([None] for a naive value). *)
Record datetime := mk_datetime { wall : Z; tzoffset : option Z }.

(** The instant an aware value denotes; a naive one is read as UTC. *)
Definition instant (d : datetime) : Z := wall d - default 0 (tzoffset d).

(** [dt + delta] keeps the [tzinfo] of [dt]. *)
Definition dt_add (d : datetime) (delta : Z) : datetime :=
  {| wall := wall d + delta; tzoffset := tzoffset d |}.

(** [datetime.now(pytz.UTC)] when the clock reads [now]. *)
Definition utc (now : Z) : datetime := {| wall := now; tzoffset := Some 0 |}.

End Time.

Import Time.

(** ** Text: the [str] methods and the [re.search] patterns in use *)

Module Text.

Local Open Scope N_scope.

Definition code (c : ascii) : N := Ascii.N_of_ascii c.

Definition between (lo hi : N) (c : ascii) : bool :=
  (lo <=? code c) && (code c <=? hi).

Definition is_upper_letter : ascii -> bool := between 65 90.
Definition is_lower_letter : ascii -> bool := between 97 122.
Definition is_digit : ascii -> bool := between 48 57.

(** [str.isspace] and the class [\s] on ASCII: tab to carriage return,
    the four separators 28 to 31, and the space. *)
Definition is_space (c : ascii) : bool :=
  between 9 13 c || between 28 31 c || (code c =? 32).

Definition is_newline (c : ascii) : bool := code c =? 10.

Definition upper_char (c : ascii) : ascii :=
  if is_lower_letter c then Ascii.ascii_of_N (code c - 32) else c.

Definition lower_char (c : ascii) : ascii :=
  if is_upper_letter c then Ascii.ascii_of_N (code c + 32) else c.

Fixpoint map_chars (f : ascii -> ascii) (s : string) : string :=
  match s with
  | EmptyString => EmptyString
  | String c s' => String (f c) (map_chars f s')
  end.

(** [s.upper()] and [s.lower()]. *)
Definition upper : string -> string := map_chars upper_char.
Definition lower : string -> string := map_chars lower_char.

(** [rest] when [s = p + rest]; the comparison of characters is [eqc]. *)
Fixpoint strip_prefix_by (eqc : ascii -> ascii -> bool) (p s : string)
  : option string :=
  match p, s with
  | EmptyString, _ => Some s
  | String a p', String b s' =>
      if eqc a b then strip_prefix_by eqc p' s' else None
  | String _ _, EmptyString => None
  end.

Definition same_char (a b : ascii) : bool := bool_decide (a = b).
Definition same_char_nocase (a b : ascii) : bool :=
  bool_decide (lower_char a = lower_char b).

Definition starts_with (p s : string) : bool :=
  match strip_prefix_by same_char p s with Some _ => true | None => false end.

(** [sub in s]. *)
Fixpoint contains (sub s : string) : bool :=
  starts_with sub s
  || match s with
     | EmptyString => false
     | String _ s' => contains sub s'
     end.

(** [s[:n]]. *)
Fixpoint take_chars (n : nat) (s : string) : string :=
  match n, s with
  | S n', String c s' => String c (take_chars n' s')
  | _, _ => EmptyString
  end.

Fixpoint drop_chars (n : nat) (s : string) : string :=
  match n, s with
  | S n', String _ s' => drop_chars n' s'
  | _, _ => s
  end.

Fixpoint lstrip (s : string) : string :=
  match s with
  | String c s' => if is_space c then lstrip s' else s
  | EmptyString => EmptyString
  end.

(** Drops the white space at the end: a character is kept when it is not
    white space or something is kept after it. *)
Fixpoint rstrip (s : string) : string :=
  match s with
  | EmptyString => EmptyString
  | String c s' =>
      match rstrip s' with
      | EmptyString => if is_space c then EmptyString else String c EmptyString
      | r => String c r
      end
  end.

(** [s.strip()]. *)
Definition strip (s : string) : string := rstrip (lstrip s).

(** [s.replace(old, new)] for a non-empty [old]: the occurrences are
    replaced from the left and do not overlap.  [skip] counts the
    characters of an occurrence that are still to be dropped. *)
Fixpoint replace_from (skip : nat) (old new s : string) : string :=
  match s with
  | EmptyString => EmptyString
  | String c s' =>
      match skip with
      | S k => replace_from k old new s'
      | O =>
          if starts_with old s
          then new +:+ replace_from (String.length old - 1) old new s'
          else String c (replace_from O old new s')
      end
  end.

Definition replace (old new s : string) : string := replace_from O old new s.

(** [s.split(sep)[-1]] for a one-character [sep]: what follows the last
    separator.  [acc] is the segment read so far. *)
Fixpoint last_segment_from (sep : ascii) (acc s : string) : string :=
  match s with
  | EmptyString => acc
  | String c s' =>
      if same_char c sep
      then last_segment_from sep EmptyString s'
      else last_segment_from sep (acc +:+ String c EmptyString) s'
  end.

Definition last_segment (sep : ascii) (s : string) : string :=
  last_segment_from sep EmptyString s.

(** [s.split(sep)] for a one-character [sep]; [acc] is the segment read
    so far. *)
Fixpoint split_from (sep : ascii) (acc s : string) : list string :=
  match s with
  | EmptyString => [acc]
  | String c s' =>
      if same_char c sep
      then acc :: split_from sep EmptyString s'
      else split_from sep (acc +:+ String c EmptyString) s'
  end.

Definition split (sep : ascii) (s : string) : list string :=
  split_from sep EmptyString s.

(** *** [re.search]: a literal head, then a tail matcher

    [re.search] tries the pattern at every position from the left and
    returns the group of the first position where it matches. *)
Fixpoint re_search (eqc : ascii -> ascii -> bool) (head : string)
    (tail : string -> option string) (s : string) : option string :=
  let here :=
    match strip_prefix_by eqc head s with
    | Some rest => tail rest
    | None => None
    end in
  match here with
  | Some g => Some g
  | None =>
      match s with
      | EmptyString => None
      | String _ s' => re_search eqc head tail s'
      end
  end.

(** A greedy [\s*] before [k]: take one more white-space character when
    the rest then matches, otherwise match [k] here. *)
Fixpoint spaces_then (k : string -> option string) (s : string)
  : option string :=
  match s with
  | String c s' =>
      if is_space c
      then match spaces_then k s' with
           | Some g => Some g
           | None => k s
           end
      else k s
  | EmptyString => k s
  end.

(** The longest prefix of characters of a class. *)
Fixpoint span_class (cls : ascii -> bool) (s : string) : string :=
  match s with
  | String c s' => if cls c then String c (span_class cls s') else EmptyString
  | EmptyString => EmptyString
  end.

(** [([A-Z0-9]+)] under [re.IGNORECASE], at the end of a pattern. *)
Definition is_alnum (c : ascii) : bool :=
  is_upper_letter c || is_lower_letter c || is_digit c.

Definition alnum_group (s : string) : option string :=
  match span_class is_alnum s with
  | EmptyString => None
  | g => Some g
  end.

(** [(.+?)(?:\n|$)]: one character or more, none of them a newline, as few
    as possible before a newline or the end of the text. *)
Definition lazy_line_group (s : string) : option string :=
  match span_class (fun c => negb (is_newline c)) s with
  | EmptyString => None
  | g => Some g
  end.

End Text.

(** ** [datetime.isoformat] *)

Module Iso.

Import Text.

Definition digit_char (n : Z) : ascii := Ascii.ascii_of_N (48 + Z.to_N (n mod 10)).

(** The last [width] decimal digits of [n], zero padded: ["%0<width>d"]
    for [0 <= n < 10 ^ width]. *)
Fixpoint digits (width : nat) (n : Z) : string :=
  match width with
  | O => EmptyString
  | S w => digits w (n / 10) +:+ String (digit_char n) EmptyString
  end.

(** The civil date (year, month, day) of a day number counted from
    1970-01-01, in the proleptic Gregorian calendar. *)
Definition civil_from_days (z : Z) : Z * Z * Z :=
  let z := z + 719468 in
  let era := z / 146097 in
  let doe := z - era * 146097 in
  let yoe := (doe - doe / 1460 + doe / 36524 - doe / 146096) / 365 in
  let doy := doe - (365 * yoe + yoe / 4 - yoe / 100) in
  let mp := (5 * doy + 2) / 153 in
  let d := doy - (153 * mp + 2) / 5 + 1 in
  let m := if mp <? 10 then mp + 3 else mp - 9 in
  let y := yoe + era * 400 + (if m <=? 2 then 1 else 0) in
  (y, m, d).

Definition format_time (us : Z) : string :=
  digits 2 (us / HOUR) +:+ ":" +:+ digits 2 (us mod HOUR / MINUTE) +:+ ":"
  +:+ digits 2 (us mod MINUTE / SECOND)
  +:+ (if us mod SECOND =? 0 then "" else "." +:+ digits 6 (us mod SECOND)).

Definition format_offset (off : option Z) : string :=
  match off with
  | None => ""
  | Some o =>
      let a := Z.abs o in
      (if o <? 0 then "-" else "+")
      +:+ digits 2 (a / HOUR) +:+ ":" +:+ digits 2 (a mod HOUR / MINUTE)
      +:+ (if a mod MINUTE =? 0 then ""
           else ":" +:+ digits 2 (a mod MINUTE / SECOND)
                +:+ (if a mod SECOND =? 0 then ""
                     else "." +:+ digits 6 (a mod SECOND)))
  end.

Definition isoformat (d : datetime) : string :=
  let '(y, m, dd) := civil_from_days (wall d / DAY) in
  digits 4 y +:+ "-" +:+ digits 2 m +:+ "-" +:+ digits 2 dd +:+ "T"
  +:+ format_time (wall d mod DAY) +:+ format_offset (tzoffset d).

End Iso.

(** ** [calendar_poller.py]: events, the time-window policy, the ledger *)

Module Poller.

Import Text.

Record CheckoutEvent := mk_event {
  reservation_id : string;
  event_start : datetime;
  event_end : datetime;
  property_name : string;
  guest_name : string;
  summary : string;
  description : string;
  has_trigger_keyword : bool
}.

(** [CheckoutEvent.__eq__]: two events are equal when their reservation
    ids are. *)
Definition event_eq (a b : CheckoutEvent) : bool :=
  bool_decide (reservation_id a = reservation_id b).

(** The value of a [DTSTART] or [DTEND] property: a [date] (an all-day
    entry, as a day number) or a [datetime]. *)
Inductive dt_value :=
| DDate (days : Z)
| DDateTime (d : datetime).

(** A component of the parsed feed, with the properties the poller reads;
    [None] is an absent property. *)
Record Component := mk_component {
  name : string;
  get_summary : option string;
  get_description : option string;
  get_dtstart : option dt_value;
  get_dtend : option dt_value
}.

(** A parsed [Calendar], as the list [calendar.walk()] enumerates. *)
Record Calendar := mk_calendar { walk : list Component }.

Record CalendarPoller := mk_poller {
  ical_url : string;
  trigger_keyword : string;
  _processed_events : gset string;
  _processed_timestamps : gmap string Z
}.

Definition DEFAULT_TRIGGER_KEYWORD : string := "TURN_OFF_THERMOSTATS".

(** [CalendarPoller.__init__]. *)
Definition init (url keyword : string) : CalendarPoller :=
  {| ical_url := replace "webcal://" "https://" url;
     trigger_keyword := keyword;
     _processed_events := ∅;
     _processed_timestamps := ∅ |}.

Definition NEWLINE : string := String (Ascii.ascii_of_nat 10) EmptyString.

Definition _parse_reservation_id (description : string) : option string :=
  re_search same_char_nocase "Reservation:" (spaces_then alnum_group)
    description.

Definition _parse_property_name (description : string) : string :=
  match re_search same_char "Property:" (spaces_then lazy_line_group)
          description with
  | Some g => strip g
  | None => "Unknown Property"
  end.

Definition _parse_guest_name (description : string) : string :=
  match re_search same_char "Guest name:" (spaces_then lazy_line_group)
          description with
  | Some g => strip g
  | None => "Unknown Guest"
  end.

(** [_ensure_timezone_aware]: a naive [datetime] is localized to UTC, an
    aware one is returned as it is.  A [date] has no attribute [tzinfo]:
    reading it raises [AttributeError], here [None]. *)
Definition _ensure_timezone_aware (v : dt_value) : option datetime :=
  match v with
  | DDate _ => None
  | DDateTime d =>
      match tzoffset d with
      | None => Some {| wall := wall d; tzoffset := Some 0 |}
      | Some _ => Some d
      end
  end.

(** What the body of the loop of [parse_events] does with one component. *)
Inductive outcome :=
| Skipped
| Raised
| Selected (e : CheckoutEvent).

(** [buffer_start <= event_start <= now] *)
Definition is_in_window (now buffer_minutes : Z) (start : datetime) : bool :=
  let buffer_start := now - timedelta_minutes buffer_minutes in
  (buffer_start <=? instant start) && (instant start <=? now).

(** [event_start <= now <= event_end] *)
Definition is_happening_now (now : Z) (start end_ : datetime) : bool :=
  (instant start <=? now) && (now <=? instant end_).

Definition is_checkout (summary : string) : bool :=
  contains "check-out" (lower summary) || contains "checkout" (lower summary).

Definition has_trigger (keyword description : string) : bool :=
  contains (upper keyword) (upper description).

(** The computation of [event_end]: the localized [DTEND], or one hour
    after the start; [None] when [_ensure_timezone_aware] raises. *)
Definition end_of (start : datetime) (dtend : option dt_value)
  : option datetime :=
  match dtend with
  | Some v => _ensure_timezone_aware v
  | None => Some (dt_add start (timedelta_hours 1))
  end.

Definition parse_component (self : CalendarPoller) (now buffer_minutes : Z)
    (component : Component) : outcome :=
  if negb (bool_decide (name component = "VEVENT")) then Skipped else
  let summary := default "" (get_summary component) in
  let description := default "" (get_description component) in
  match get_dtstart component with
  | None => Skipped
  | Some dtstart =>
      match _ensure_timezone_aware dtstart with
      | None => Raised
      | Some event_start =>
          match end_of event_start (get_dtend component) with
          | None => Raised
          | Some event_end =>
              (* both values are [datetime]s here: the two [isinstance]
                 tests for all-day values do nothing *)
              if negb (is_in_window now buffer_minutes event_start
                       || is_happening_now now event_start event_end)
              then Skipped
              else
                let reservation_id :=
                  match _parse_reservation_id description with
                  | Some r => r
                  | None =>
                      take_chars 20 summary +:+ "_"
                      +:+ Iso.isoformat event_start
                  end in
                let has_trigger :=
                  has_trigger (trigger_keyword self) description in
                if negb (is_checkout summary || has_trigger) then Skipped
                else
                  Selected
                    {| reservation_id := reservation_id;
                       event_start := event_start;
                       event_end := event_end;
                       property_name := _parse_property_name description;
                       guest_name := _parse_guest_name description;
                       summary := summary;
                       description := description;
                       has_trigger_keyword := has_trigger |}
          end
      end
  end.

(** [parse_events], with the reading [now] of the clock: the events of the
    components the loop selects, in the order of the walk. *)
Definition parse_events (self : CalendarPoller) (now : Z)
    (calendar : Calendar) (buffer_minutes : Z) : list CheckoutEvent :=
  foldl
    (fun events component =>
       match parse_component self now buffer_minutes component with
       | Selected event => events ++ [event]
       | Skipped | Raised => events
       end)
    [] (walk calendar).

(** [filter_unprocessed] *)
Definition filter_unprocessed (self : CalendarPoller)
    (events : list CheckoutEvent) : list CheckoutEvent :=
  foldl
    (fun unprocessed event =>
       if bool_decide (reservation_id event ∈ _processed_events self)
       then unprocessed
       else unprocessed ++ [event])
    [] events.

(** [mark_processed], with the reading [now] of the clock. *)
Definition mark_processed (now : Z) (event : CheckoutEvent)
    (self : CalendarPoller) : CalendarPoller :=
  {| ical_url := ical_url self;
     trigger_keyword := trigger_keyword self;
     _processed_events := {[reservation_id event]} ∪ _processed_events self;
     _processed_timestamps :=
       <[reservation_id event := now]> (_processed_timestamps self) |}.

(** The ids [cleanup_old_processed] collects in [to_remove]. *)
Definition to_remove (now max_age_hours : Z) (self : CalendarPoller)
  : list string :=
  let cutoff := now - timedelta_hours max_age_hours in
  (List.filter (fun item : string * Z => snd item <? cutoff)
     (map_to_list (_processed_timestamps self))).*1.

Definition discard (res_id : string) (self : CalendarPoller)
  : CalendarPoller :=
  {| ical_url := ical_url self;
     trigger_keyword := trigger_keyword self;
     _processed_events := _processed_events self ∖ {[res_id]};
     _processed_timestamps := delete res_id (_processed_timestamps self) |}.

(** [cleanup_old_processed], with the reading [now] of the clock. *)
Definition cleanup_old_processed (now max_age_hours : Z)
    (self : CalendarPoller) : CalendarPoller :=
  foldl (fun p res_id => discard res_id p) self
    (to_remove now max_age_hours self).

Definition DEFAULT_MAX_AGE_HOURS : Z := 24.
Definition DEFAULT_BUFFER_MINUTES : Z := 30.

End Poller.

(** ** Python dictionaries whose order of insertion is observed *)

Module PyDict.

(** A [dict] with [str] keys: the items in the order the keys were first
    inserted, no key twice. *)
Definition dict (V : Type) : Type := list (string * V).

(** [d[k] = v]: a key already present keeps its place. *)
Fixpoint set {V} (k : string) (v : V) (d : dict V) : dict V :=
  match d with
  | [] => [(k, v)]
  | (k', v') :: d' =>
      if bool_decide (k = k') then (k, v) :: d' else (k', v') :: set k v d'
  end.

(** [d.get(k)] *)
Fixpoint get {V} (k : string) (d : dict V) : option V :=
  match d with
  | [] => None
  | (k', v') :: d' => if bool_decide (k = k') then Some v' else get k d'
  end.

Definition keys {V} (d : dict V) : list string := d.*1.
Definition values {V} (d : dict V) : list V := d.*2.

(** [len(d)] *)
Definition len {V} (d : dict V) : nat := length d.

(** [for k, v in items: d[k] = v] *)
Definition fill {V} (d : dict V) (items : list (string * V)) : dict V :=
  foldl (fun d item => set (fst item) (snd item) d) d items.

End PyDict.

(** ** The environment: exceptions, oracles, the state of the process *)

Module Env.

Import Poller.

(** The exceptions in play. *)
Inductive exn :=
| HTTPStatusError (status : Z)  (* httpx.HTTPStatusError *)
| ConnectError                  (* httpx.ConnectError *)
| OtherHTTPError                (* another httpx.HTTPError: a timeout, ... *)
| RefreshError                  (* raised by [Credentials.refresh] *)
| ValueError                    (* a body that is not what was expected *)
| SinkError                     (* raised by the notification sink *)
| RetryError (last : exn).      (* tenacity.RetryError *)

(** [isinstance(e, httpx.HTTPError)] *)
Definition is_HTTPError (e : exn) : bool :=
  match e with
  | HTTPStatusError _ | ConnectError | OtherHTTPError => true
  | _ => false
  end.

(** What an HTTP request gives: a response, or the exception the client
    raises instead. *)
Inductive reply (Body : Type) :=
| Response (status : Z) (body : Body)
| Fails (e : exn).
Arguments Response {Body} status body.
Arguments Fails {Body} e.

(** A device of the listing, as far as [list_devices] reads it: ["name"],
    and from ["traits"] the mode trait ([None] when the trait is absent,
    [Some None] when it has no ["mode"]), the custom name, the temperature
    and the humidity (numbers are kept as their text). *)
Record DeviceJson := mk_device_json {
  json_name : option string;
  json_thermostat_mode : option (option string);
  json_custom_name : option string;
  json_temperature : option string;
  json_humidity : option string
}.

(** The outside of the process.  Each oracle is indexed by the number of
    earlier uses.
    - [clock]: the readings of the clock (microseconds since the epoch);
    - [feed]: the replies to the GET of the feed; the body is the parsed
      calendar, [None] when [Calendar.from_ical] raises on it;
    - [token_endpoint]: the refresh exchanges; the token and its expiry,
      [None] when [Credentials.refresh] raises;
    - [device_list]: the replies to the listing; the body is the list
      under ["devices"], [None] when the body cannot be read;
    - [device_command]: the replies to [executeCommand];
    - [sink]: the notification sink; whether the mail went out, [None]
      when sending raises;
    - [REFRESH_THRESHOLD]: the skew google-auth subtracts from the expiry
      in [Credentials.expired];
    - [strict_status]: whether [raise_for_status] raises on every status
      outside 2xx (recent httpx) or on 4xx and 5xx only. *)
Record World := mk_world {
  clock : nat -> Z;
  feed : nat -> reply (option Calendar);
  token_endpoint : nat -> option (string * option Z);
  device_list : nat -> reply (option (list DeviceJson));
  device_command : nat -> reply unit;
  sink : nat -> option bool;
  REFRESH_THRESHOLD : Z;
  strict_status : bool
}.

(** What the notification sink is handed. *)
Record Notification := mk_notification {
  note_property_name : string;
  note_guest_name : string;
  note_reservation_id : string;
  note_thermostat_results : PyDict.dict bool;
  note_event_time : datetime
}.

(** What the process has done to the outside so far. *)
Record Trace := mk_trace {
  clock_reads : nat;
  feed_calls : nat;
  refresh_calls : nat;
  list_calls : nat;
  commands : list (string * string);  (* device id and mode of each POST *)
  notifications : list Notification
}.

Definition no_trace : Trace :=
  {| clock_reads := 0; feed_calls := 0; refresh_calls := 0; list_calls := 0;
     commands := []; notifications := [] |}.

End Env.

(** ** The objects of the process *)

Module Obj.

Import Poller Env.

(** [google.oauth2.credentials.Credentials], as far as it is used. *)
Record Credentials := mk_credentials {
  token : option string;
  expiry : option Z
}.

Record TokenManager := mk_token_manager {
  client_id : string;
  client_secret : string;
  refresh_token : string;
  _credentials : option Credentials;
  _last_refresh : option Z
}.

Record Thermostat := mk_thermostat {
  device_id : string;
  name : string;
  display_name : string;
  current_mode : string;
  ambient_temperature_celsius : option string;
  humidity_percent : option string
}.

Record NestController := mk_nest_controller {
  project_id : string;
  _devices_cache : option (list Thermostat)
}.

(** [config.Settings], the fields the pipeline reads. *)
Record Settings := mk_settings {
  nest_device_ids : string;
  checkout_buffer_minutes : Z;
  smtp_enabled : bool;
  smtp_host : string;
  smtp_port : Z;
  smtp_username : string;
  smtp_password : string;
  smtp_to_email : string
}.

(** What [process_checkout_event] returns. *)
Inductive ActionResult :=
| NoThermostatsFound  (* {"success": False, "error": "No thermostats found"} *)
| Action (reservation_id property : string)
         (thermostats_off thermostats_failed : nat)
         (results : PyDict.dict bool).

(** The module-level variables of [main.py]. *)
Record Globals := mk_globals {
  last_poll_time : option Z;
  last_action_time : option Z;
  last_action_result : option ActionResult
}.

(** The whole state: the outside, what was done to it, and the objects. *)
Record Sys := mk_sys {
  world : World;
  trace : Trace;
  settings : Settings;
  token_manager : TokenManager;
  nest_controller : NestController;
  calendar_poller : CalendarPoller;
  globals : Globals
}.

Definition with_trace (t : Trace) (s : Sys) : Sys :=
  {| world := world s; trace := t; settings := settings s;
     token_manager := token_manager s; nest_controller := nest_controller s;
     calendar_poller := calendar_poller s; globals := globals s |}.

Definition with_token_manager (tm : TokenManager) (s : Sys) : Sys :=
  {| world := world s; trace := trace s; settings := settings s;
     token_manager := tm; nest_controller := nest_controller s;
     calendar_poller := calendar_poller s; globals := globals s |}.

Definition with_nest_controller (nc : NestController) (s : Sys) : Sys :=
  {| world := world s; trace := trace s; settings := settings s;
     token_manager := token_manager s; nest_controller := nc;
     calendar_poller := calendar_poller s; globals := globals s |}.

Definition with_calendar_poller (cp : CalendarPoller) (s : Sys) : Sys :=
  {| world := world s; trace := trace s; settings := settings s;
     token_manager := token_manager s; nest_controller := nest_controller s;
     calendar_poller := cp; globals := globals s |}.

Definition with_globals (g : Globals) (s : Sys) : Sys :=
  {| world := world s; trace := trace s; settings := settings s;
     token_manager := token_manager s; nest_controller := nest_controller s;
     calendar_poller := calendar_poller s; globals := g |}.

End Obj.

(** ** The monad of the process: state and exceptions *)

Module Run.

Import Env Obj.

Inductive result (A : Type) :=
| Ok (a : A)
| Raise (e : exn).
Arguments Ok {A} a.
Arguments Raise {A} e.

Definition M (A : Type) : Type := Sys -> result A * Sys.

Definition ret {A} (a : A) : M A := fun s => (Ok a, s).

Definition raise {A} (e : exn) : M A := fun s => (Raise e, s).

Definition bind {A B} (m : M A) (k : A -> M B) : M B :=
  fun s =>
    match m s with
    | (Ok a, s') => k a s'
    | (Raise e, s') => (Raise e, s')
    end.

(** [try: m except Exception as e: h e] *)
Definition try_except {A} (m : M A) (h : exn -> M A) : M A :=
  fun s =>
    match m s with
    | (Ok a, s') => (Ok a, s')
    | (Raise e, s') => h e s'
    end.

Definition get_sys : M Sys := fun s => (Ok s, s).
Definition modify (f : Sys -> Sys) : M unit := fun s => (Ok tt, f s).

Declare Scope run_scope.
Delimit Scope run_scope with run.
Notation "'do' x <- m ; k" := (bind m (fun x => k))
  (at level 10, x name, m at level 100, k at level 200) : run_scope.
Local Open Scope run_scope.

(** [for x in xs: body x] *)
Fixpoint for_each {A} (xs : list A) (body : A -> M unit) : M unit :=
  match xs with
  | [] => ret tt
  | x :: xs' => do _ <- body x; for_each xs' body
  end.

(** Reading an oracle advances its counter. *)
Definition read_clock : M Z :=
  fun s =>
    let t := trace s in
    (Ok (clock (world s) (clock_reads t)),
     with_trace
       {| clock_reads := S (clock_reads t); feed_calls := feed_calls t;
          refresh_calls := refresh_calls t; list_calls := list_calls t;
          commands := commands t; notifications := notifications t |} s).

Definition call_feed : M (reply (option Poller.Calendar)) :=
  fun s =>
    let t := trace s in
    (Ok (feed (world s) (feed_calls t)),
     with_trace
       {| clock_reads := clock_reads t; feed_calls := S (feed_calls t);
          refresh_calls := refresh_calls t; list_calls := list_calls t;
          commands := commands t; notifications := notifications t |} s).

Definition call_token_endpoint : M (option (string * option Z)) :=
  fun s =>
    let t := trace s in
    (Ok (token_endpoint (world s) (refresh_calls t)),
     with_trace
       {| clock_reads := clock_reads t; feed_calls := feed_calls t;
          refresh_calls := S (refresh_calls t); list_calls := list_calls t;
          commands := commands t; notifications := notifications t |} s).

Definition call_device_list : M (reply (option (list DeviceJson))) :=
  fun s =>
    let t := trace s in
    (Ok (device_list (world s) (list_calls t)),
     with_trace
       {| clock_reads := clock_reads t; feed_calls := feed_calls t;
          refresh_calls := refresh_calls t; list_calls := S (list_calls t);
          commands := commands t; notifications := notifications t |} s).

Definition call_device_command (device_id mode : string) : M (reply unit) :=
  fun s =>
    let t := trace s in
    (Ok (device_command (world s) (length (commands t))),
     with_trace
       {| clock_reads := clock_reads t; feed_calls := feed_calls t;
          refresh_calls := refresh_calls t; list_calls := list_calls t;
          commands := commands t ++ [(device_id, mode)];
          notifications := notifications t |} s).

Definition call_sink (n : Notification) : M (option bool) :=
  fun s =>
    let t := trace s in
    (Ok (sink (world s) (length (notifications t))),
     with_trace
       {| clock_reads := clock_reads t; feed_calls := feed_calls t;
          refresh_calls := refresh_calls t; list_calls := list_calls t;
          commands := commands t;
          notifications := notifications t ++ [n] |} s).

(** [response.raise_for_status()] *)
Definition raise_for_status (status : Z) : M unit :=
  fun s =>
    if (200 <=? status) && (status <=? 299) then (Ok tt, s)
    else if (400 <=? status) && (status <=? 599)
         then (Raise (HTTPStatusError status), s)
    else if strict_status (world s) then (Raise (HTTPStatusError status), s)
    else (Ok tt, s).

End Run.

(** ** [auth.py]: the token manager *)

Module Auth.

Import Env Obj Run.
Local Open Scope run_scope.

(** The safety margin of [get_valid_token]: [timedelta(minutes=10)]. *)
Definition SAFETY_MARGIN : Z := timedelta_minutes 10.

Definition _create_credentials : Credentials :=
  {| token := None; expiry := None |}.

Definition set_credentials (c : Credentials) : M unit :=
  modify (fun s =>
    let tm := token_manager s in
    with_token_manager
      {| client_id := client_id tm; client_secret := client_secret tm;
         refresh_token := refresh_token tm; _credentials := Some c;
         _last_refresh := _last_refresh tm |} s).

Definition set_last_refresh (now : Z) : M unit :=
  modify (fun s =>
    let tm := token_manager s in
    with_token_manager
      {| client_id := client_id tm; client_secret := client_secret tm;
         refresh_token := refresh_token tm; _credentials := _credentials tm;
         _last_refresh := Some now |} s).

(** [Credentials.expired] of google-auth: without an expiry the token
    never expires; otherwise [utcnow() >= expiry - REFRESH_THRESHOLD]. *)
Definition expired (c : Credentials) : M bool :=
  match expiry c with
  | None => ret false
  | Some x =>
      do s <- get_sys;
      do now <- read_clock;
      ret (x - REFRESH_THRESHOLD (world s) <=? now)
  end.

(** [token is None or expired or (expiry and expiry < utcnow() + 10 min)],
    evaluated from the left as [or] and [and] do. *)
Definition needs_refresh (c : Credentials) : M bool :=
  match token c with
  | None => ret true
  | Some _ =>
      do e <- expired c;
      if e then ret true
      else match expiry c with
           | None => ret false
           | Some x =>
               do now <- read_clock;
               ret (x <? now + SAFETY_MARGIN)
           end
  end.

(** [Credentials.refresh(Request())]: one exchange with the token
    endpoint; the credentials are updated when it succeeds. *)
Definition refresh : M unit :=
  do r <- call_token_endpoint;
  match r with
  | None => raise RefreshError
  | Some (tok, exp) => set_credentials {| token := Some tok; expiry := exp |}
  end.

Definition get_valid_token : M (option string) :=
  do s <- get_sys;
  do creds <-
    match _credentials (token_manager s) with
    | None =>
        do _ <- set_credentials _create_credentials;
        ret _create_credentials
    | Some c => ret c
    end;
  do needs <- needs_refresh creds;
  do _ <-
    (if needs
     then try_except
            (do _ <- refresh;
             do now <- read_clock;
             set_last_refresh now)
            (fun e => raise e)
     else ret tt);
  do s' <- get_sys;
  ret (match _credentials (token_manager s') with
       | Some c => token c
       | None => None
       end).

(** The value of the [Authorization] header. *)
Definition get_auth_header : M string :=
  do t <- get_valid_token;
  ret ("Bearer " +:+ default "None" t).

End Auth.

(** ** [nest_controller.py]: the device client *)

Module Nest.

Import Env Obj Run.
Local Open Scope run_scope.

(** [retry_if_exception_type((httpx.HTTPStatusError, httpx.ConnectError))] *)
Definition retryable (e : exn) : bool :=
  match e with
  | HTTPStatusError _ | ConnectError => true
  | _ => false
  end.

(** [stop_after_attempt(3)] *)
Definition STOP_AFTER_ATTEMPT : nat := 3.

(** The [@retry] decorator, with [more] attempts allowed after this one:
    a result is returned; an exception that is not retryable is raised as
    it is; a retryable one leads to the next attempt, or to [RetryError]
    after the last.  The wait between two attempts changes nothing but
    the clock. *)
Fixpoint retry_from {A} (more : nat) (body : M A) : M A :=
  try_except body
    (fun e =>
       if retryable e
       then match more with
            | O => raise (RetryError e)
            | S m => retry_from m body
            end
       else raise e).

Definition retry {A} (body : M A) : M A :=
  retry_from (STOP_AFTER_ATTEMPT - 1) body.

Definition _get_headers : M string := Auth.get_auth_header.

Definition set_devices_cache (thermostats : list Thermostat) : M unit :=
  modify (fun s =>
    with_nest_controller
      {| project_id := project_id (nest_controller s);
         _devices_cache := Some thermostats |} s).

(** One device of the listing: [None] when it has no thermostat-mode
    trait and is skipped. *)
Definition to_thermostat (device : DeviceJson) : option Thermostat :=
  let device_id := Text.last_segment "/" (default "" (json_name device)) in
  match json_thermostat_mode device with
  | None => None
  | Some mode =>
      Some {| device_id := device_id;
              name := default "" (json_name device);
              display_name := default "Unknown" (json_custom_name device);
              current_mode := default "UNKNOWN" mode;
              ambient_temperature_celsius := json_temperature device;
              humidity_percent := json_humidity device |}
  end.

(** The listing call of [list_devices] and the rebuilding of the cache. *)
Definition fetch_devices : M (list Thermostat) :=
  do _ <- _get_headers;
  do r <- call_device_list;
  match r with
  | Fails e => raise e
  | Response status body =>
      do _ <- raise_for_status status;
      match body with
      | None => raise ValueError
      | Some devices =>
          let thermostats := omap to_thermostat devices in
          do _ <- set_devices_cache thermostats;
          ret thermostats
      end
  end.

(** The body of [list_devices], one attempt: the cache is served when it
    holds a non-empty list and no refresh is forced. *)
Definition list_devices_once (force_refresh : bool) : M (list Thermostat) :=
  do s <- get_sys;
  match _devices_cache (nest_controller s) with
  | Some (d :: cache) =>
      if negb force_refresh then ret (d :: cache) else fetch_devices
  | Some [] | None => fetch_devices
  end.

Definition list_devices (force_refresh : bool) : M (list Thermostat) :=
  retry (list_devices_once force_refresh).

(** The body of [set_thermostat_mode], one attempt. *)
Definition set_thermostat_mode_once (device_id mode : string) : M bool :=
  do _ <- _get_headers;
  do r <- call_device_command device_id mode;
  match r with
  | Fails e => raise e
  | Response status _ =>
      if status =? 200 then ret true
      else do _ <- raise_for_status status; ret false
  end.

Definition set_thermostat_mode (device_id mode : string) : M bool :=
  retry (set_thermostat_mode_once device_id mode).

Definition turn_off_thermostat (device_id : string) : M bool :=
  set_thermostat_mode device_id "OFF".

(** The loop of [turn_off_thermostats], from the dictionary built so
    far. *)
Fixpoint turn_off_loop (device_ids : list string) (results : PyDict.dict bool)
  : M (PyDict.dict bool) :=
  match device_ids with
  | [] => ret results
  | device_id :: rest =>
      do success <-
        try_except (turn_off_thermostat device_id) (fun _ => ret false);
      turn_off_loop rest (PyDict.set device_id success results)
  end.

Definition turn_off_thermostats (device_ids : list string)
  : M (PyDict.dict bool) :=
  turn_off_loop device_ids [].


Definition discover_and_log_devices : M (list Thermostat) :=
  try_except (list_devices true) (fun e => raise e).

End Nest.

(** ** [config.py], [notifier.py] and [main.py]: the orchestrator *)

Module Main.

Import Poller Env Obj Run.
Local Open Scope run_scope.

(** [Settings.device_ids_list] *)
Definition device_ids_list (st : Settings) : list string :=
  match nest_device_ids st with
  | EmptyString => []
  | ids =>
      List.filter (fun d => negb (bool_decide (d = EmptyString)))
        (map Text.strip (Text.split "," ids))
  end.

(** [EmailNotifier.is_configured] *)
Definition is_configured (st : Settings) : bool :=
  if negb (smtp_enabled st) then false
  else negb (bool_decide (smtp_host st = EmptyString))
       && negb (smtp_port st =? 0)
       && negb (bool_decide (smtp_username st = EmptyString))
       && negb (bool_decide (smtp_password st = EmptyString))
       && negb (bool_decide (smtp_to_email st = EmptyString)).

(** [send_thermostat_notification], called when the notifier is
    configured: the sink says whether the mail went out, or raises. *)
Definition send_thermostat_notification (n : Notification) : M bool :=
  do r <- call_sink n;
  match r with
  | Some sent => ret sent
  | None => raise SinkError
  end.

(** [{d.device_id: d.display_name for d in devices}] *)
Definition id_to_name (devices : list Thermostat) : PyDict.dict string :=
  foldl (fun d t => PyDict.set (device_id t) (display_name t) d) [] devices.

(** [{device_id_to_name.get(id, id): success for id, success in
    results.items()}] *)
Definition named (names : PyDict.dict string) (results : PyDict.dict bool)
  : PyDict.dict bool :=
  foldl
    (fun d item =>
       PyDict.set (default (fst item) (PyDict.get (fst item) names))
         (snd item) d)
    [] results.

(** [sum(1 for v in results.values() if v)] *)
Definition count_true (results : PyDict.dict bool) : nat :=
  length (List.filter (fun v : bool => v) (PyDict.values results)).

Definition mark_processed (event : CheckoutEvent) : M unit :=
  do now <- read_clock;
  modify (fun s =>
    with_calendar_poller
      (Poller.mark_processed now event (calendar_poller s)) s).

Definition set_last_action (now : Z) (r : ActionResult) : M unit :=
  modify (fun s =>
    with_globals
      {| last_poll_time := last_poll_time (globals s);
         last_action_time := Some now;
         last_action_result := Some r |} s).

Definition set_last_poll_time (now : Z) : M unit :=
  modify (fun s =>
    with_globals
      {| last_poll_time := Some now;
         last_action_time := last_action_time (globals s);
         last_action_result := last_action_result (globals s) |} s).

Definition process_checkout_event (event : CheckoutEvent) : M ActionResult :=
  do devices <- Nest.list_devices false;
  let device_id_to_name := id_to_name devices in
  do s <- get_sys;
  let device_ids := device_ids_list (settings s) in
  let device_ids :=
    match device_ids with
    | [] => map device_id devices
    | _ => device_ids
    end in
  match device_ids with
  | [] => ret NoThermostatsFound
  | _ =>
      do results <- Nest.turn_off_thermostats device_ids;
      let success_count := count_true results in
      let fail_count := (PyDict.len results - success_count)%nat in
      do _ <- mark_processed event;
      do now <- read_clock;
      let result :=
        Action (reservation_id event) (property_name event)
          success_count fail_count results in
      do _ <- set_last_action now result;
      do _ <-
        (if is_configured (settings s)
         then try_except
                (do _ <- send_thermostat_notification
                           {| note_property_name := property_name event;
                              note_guest_name := guest_name event;
                              note_reservation_id := reservation_id event;
                              note_thermostat_results :=
                                named device_id_to_name results;
                              note_event_time := event_start event |};
                 ret tt)
                (fun _ => ret tt)
         else ret tt);
      ret result
  end.

(** [CalendarPoller.fetch_calendar]: [None] on any failure. *)
Definition fetch_calendar : M (option Calendar) :=
  try_except
    (do r <- call_feed;
     match r with
     | Fails e => raise e
     | Response status body =>
         do _ <- raise_for_status status;
         match body with
         | None => raise ValueError
         | Some calendar => ret (Some calendar)
         end
     end)
    (fun e => if is_HTTPError e then ret None else ret None).

Definition cleanup_old_processed (max_age_hours : Z) : M unit :=
  do now <- read_clock;
  modify (fun s =>
    with_calendar_poller
      (Poller.cleanup_old_processed now max_age_hours (calendar_poller s)) s).

Definition parse_events (calendar : Calendar) (buffer_minutes : Z)
  : M (list CheckoutEvent) :=
  do now <- read_clock;
  do s <- get_sys;
  ret (Poller.parse_events (calendar_poller s) now calendar buffer_minutes).

(** [CalendarPoller.get_actionable_checkouts] *)
Definition get_actionable_checkouts (buffer_minutes : Z)
  : M (list CheckoutEvent) :=
  do _ <- cleanup_old_processed DEFAULT_MAX_AGE_HOURS;
  do calendar <- fetch_calendar;
  match calendar with
  | None => ret []
  | Some calendar =>
      do events <- parse_events calendar buffer_minutes;
      let triggered_events := List.filter has_trigger_keyword events in
      do s <- get_sys;
      ret (filter_unprocessed (calendar_poller s) triggered_events)
  end.

(** [poll_calendar_job]: one tick. *)
Definition poll_calendar_job : M unit :=
  do now <- read_clock;
  do _ <- set_last_poll_time now;
  try_except
    (do s <- get_sys;
     do events <- get_actionable_checkouts (checkout_buffer_minutes (settings s));
     match events with
     | [] => ret tt
     | _ =>
         for_each events (fun event =>
           try_except
             (do _ <- process_checkout_event event; ret tt)
             (fun _ => ret tt))
     end)
    (fun _ => ret tt).

End Main.

(** ** Notions the properties are stated with *)

Module Props.

Import Poller Env Obj Run.

(** *** The ledger *)

(** The event is one [filter_unprocessed] keeps: its id is not marked. *)
Definition unmarked (p : CalendarPoller) (e : CheckoutEvent) : bool :=
  negb (bool_decide (reservation_id e ∈ _processed_events p)).

(** The operations that change the ledger. *)
Inductive ledger_op :=
| OpMark (now : Z) (event : CheckoutEvent)
| OpCleanup (now max_age_hours : Z).

Definition step (p : CalendarPoller) (op : ledger_op) : CalendarPoller :=
  match op with
  | OpMark now event => mark_processed now event p
  | OpCleanup now max_age_hours => cleanup_old_processed now max_age_hours p
  end.

Definition run_ops (p : CalendarPoller) (ops : list ledger_op)
  : CalendarPoller :=
  foldl step p ops.

(** [op], applied to [p], evicts [res_id]. *)
Definition evicts (res_id : string) (p : CalendarPoller) (op : ledger_op)
  : bool :=
  match op with
  | OpMark _ _ => false
  | OpCleanup now max_age_hours =>
      bool_decide (res_id ∈ to_remove now max_age_hours p)
  end.

(** No operation of [ops], applied in turn from [p], evicts [res_id]. *)
Fixpoint never_evicted (res_id : string) (p : CalendarPoller)
    (ops : list ledger_op) : bool :=
  match ops with
  | [] => true
  | op :: rest =>
      negb (evicts res_id p op) && never_evicted res_id (step p op) rest
  end.

(** The set of processed ids and the dictionary of their timestamps have
    the same ids. *)
Definition ledger_consistent (p : CalendarPoller) : Prop :=
  dom (_processed_timestamps p) = _processed_events p.

(** *** The time window *)

(** The start of a timed entry, and its end: the [DTEND], or one hour
    after the start. *)
Definition entry_start (ds : datetime) : Z := instant ds.

Definition entry_end (ds : datetime) (de : option datetime) : Z :=
  match de with
  | Some d => instant d
  | None => instant ds + HOUR
  end.

(** The start is in [[now - buffer_minutes, now]], or [now] is in
    [[start, end]]. *)
Definition in_time_window (now buffer_minutes start end_ : Z) : Prop :=
  (now - buffer_minutes * MINUTE <= start <= now) \/ (start <= now <= end_).

(** The summary has a checkout indicator or the description has the
    trigger keyword, whatever the case of the letters. *)
Definition has_checkout_content (keyword : string) (component : Component)
  : Prop :=
  Text.contains "check-out" (Text.lower (default "" (get_summary component)))
    = true
  \/ Text.contains "checkout" (Text.lower (default "" (get_summary component)))
    = true
  \/ Text.contains (Text.upper keyword)
       (Text.upper (default "" (get_description component))) = true.

Definition is_selected (o : outcome) : Prop := exists e, o = Selected e.

(** The event [parse_events] appends for a component, if any. *)
Definition selection (p : CalendarPoller) (now buffer_minutes : Z)
    (c : Component) : option CheckoutEvent :=
  match parse_component p now buffer_minutes c with
  | Selected e => Some e
  | Skipped | Raised => None
  end.

(** Every character of the text is of the class. *)
Fixpoint all_chars (cls : ascii -> bool) (s : string) : bool :=
  match s with
  | EmptyString => true
  | String c s' => cls c && all_chars cls s'
  end.

(** The text is empty or starts with a character outside the class. *)
Definition stops (cls : ascii -> bool) (s : string) : bool :=
  match s with
  | EmptyString => true
  | String c _ => negb (cls c)
  end.

(** The component is one [parse_events] passes over whatever the time and
    the texts: not a VEVENT, without a start, or with a start or an end
    that is a date. *)
Definition passed_over (c : Component) : Prop :=
  Poller.name c <> "VEVENT"
  \/ get_dtstart c = None
  \/ (exists d, get_dtstart c = Some (DDate d))
  \/ (exists d, get_dtend c = Some (DDate d)).

(** *** The process

    A computation leaves a part [f] of the state as it found it, whether
    it returns or raises. *)
Definition keeps {A X} (f : Sys -> X) (m : M A) : Prop :=
  forall s, f (snd (m s)) = f s.

(** A computation returns: it raises no exception. *)
Definition returns {A} (m : M A) : Prop :=
  forall s, exists a, fst (m s) = Ok a.

(** *** The device client *)

(** [raise_for_status] raises on this status. *)
Definition status_raises (w : World) (status : Z) : bool :=
  negb ((200 <=? status) && (status <=? 299))
  && ((400 <=? status) && (status <=? 599) || strict_status w).

(** The failures that are retried. *)
Definition transient (e : exn) : Prop :=
  (exists status, e = HTTPStatusError status) \/ e = ConnectError.

(** What one device gets in the fan-out, run from [s]: whether its
    turn-off returned true, and the state it leaves. *)
Definition individual_outcome (device_id : string) (s : Sys) : bool * Sys :=
  match Nest.turn_off_thermostat device_id s with
  | (Ok success, s') => (success, s')
  | (Raise _, s') => (false, s')
  end.

(** The outcomes of the devices of a fan-out from [s], each run from the
    state the devices before it leave. *)
Fixpoint outcomes (device_ids : list string) (s : Sys)
  : list (string * bool) :=
  match device_ids with
  | [] => []
  | device_id :: rest =>
      (device_id, fst (individual_outcome device_id s))
        :: outcomes rest (snd (individual_outcome device_id s))
  end.

(** The state the fan-out over [device_ids] leaves. *)
Definition state_after (device_ids : list string) (s : Sys) : Sys :=
  foldl (fun s device_id => snd (individual_outcome device_id s)) s device_ids.

(** The reply the next [executeCommand] gets, and the state once it is
    posted. *)
Definition next_command_reply (s : Sys) : reply unit :=
  device_command (world s) (length (commands (trace s))).

Definition posted (device_id mode : string) (s : Sys) : Sys :=
  snd (call_device_command device_id mode s).

(** What an attempt of the mode command makes of the reply it gets. *)
Definition verdict (w : World) (r : reply unit) : result bool :=
  match r with
  | Fails e => Raise e
  | Response status _ =>
      if status =? 200 then Ok true
      else if status_raises w status then Raise (HTTPStatusError status)
      else Ok false
  end.

(** The commands posted so far. *)
Definition posts (s : Sys) : list (string * string) := commands (trace s).

(** The reply the next listing gets, and the state once it is sent. *)
Definition next_list_reply (s : Sys) : reply (option (list DeviceJson)) :=
  device_list (world s) (list_calls (trace s)).

Definition listed (s : Sys) : Sys := snd (call_device_list s).

(** [list_devices] answers from the cache: it holds a non-empty list and
    no refresh is forced. *)
Definition serves_cache (force_refresh : bool) (s : Sys) : bool :=
  match _devices_cache (nest_controller s) with
  | Some (_ :: _) => negb force_refresh
  | Some [] | None => false
  end.


(** The character is not a comma. *)
Definition not_comma (c : ascii) : bool := negb (Text.same_char c ",").

(** The listing calls made so far. *)
Definition listings (s : Sys) : nat := list_calls (trace s).

(** *** The token manager *)

(** The credentials [get_valid_token] works on. *)
Definition held (s : Sys) : Credentials :=
  default Auth._create_credentials (_credentials (token_manager s)).

(** The conditions of a refresh, for a call from [s]: no token is held;
    the token is expired at the first reading of the clock; the expiry is
    less than ten minutes after the second reading. *)
Definition no_token (s : Sys) : Prop := token (held s) = None.

Definition token_expired (s : Sys) : Prop :=
  exists x, expiry (held s) = Some x
    /\ x - REFRESH_THRESHOLD (world s) <= clock (world s) (clock_reads (trace s)).

Definition within_margin (s : Sys) : Prop :=
  exists x, expiry (held s) = Some x
    /\ x < clock (world s) (S (clock_reads (trace s))) + 10 * MINUTE.

(** The three conditions as one test. *)
Definition must_refresh (s : Sys) : bool :=
  match token (held s), expiry (held s) with
  | None, _ => true
  | Some _, None => false
  | Some _, Some x =>
      (x - REFRESH_THRESHOLD (world s)
         <=? clock (world s) (clock_reads (trace s)))
      || (x <? clock (world s) (S (clock_reads (trace s))) + 10 * MINUTE)
  end.

(** The exchange the next refresh gets. *)
Definition next_refresh_reply (s : Sys) : option (string * option Z) :=
  token_endpoint (world s) (refresh_calls (trace s)).

(** *** The feed *)

(** The fetch fails: the request raises, the status is an error, or the
    body does not parse. *)
Definition feed_failure (w : World) (r : reply (option Calendar)) : bool :=
  match r with
  | Fails _ => true
  | Response status body =>
      status_raises w status
      || match body with None => true | Some _ => false end
  end.

Definition next_feed_reply (s : Sys) : reply (option Calendar) :=
  feed (world s) (feed_calls (trace s)).

(** The state when [get_actionable_checkouts] has cleaned the ledger up
    and fetched the feed. *)
Definition fetched (s : Sys) : Sys :=
  snd (call_feed (snd (Main.cleanup_old_processed DEFAULT_MAX_AGE_HOURS s))).

(** *** The orchestrator *)

(** What has been handed to the notification sink so far. *)
Definition notes (s : Sys) : list Notification := notifications (trace s).

(** The record of the action on [event] with these results. *)
Definition action_of (event : CheckoutEvent) (results : PyDict.dict bool)
  : ActionResult :=
  Action (reservation_id event) (property_name event)
    (Main.count_true results)
    (PyDict.len results - Main.count_true results) results.

(** The notification of the action on [event]. *)
Definition note_of (event : CheckoutEvent) (devices : list Thermostat)
    (results : PyDict.dict bool) : Notification :=
  {| note_property_name := property_name event;
     note_guest_name := guest_name event;
     note_reservation_id := reservation_id event;
     note_thermostat_results := Main.named (Main.id_to_name devices) results;
     note_event_time := event_start event |}.

(** The state at the start of a tick, once the time of the poll is set. *)
Definition tick_start (s : Sys) : Sys :=
  snd (Main.set_last_poll_time (clock (world s) (clock_reads (trace s)))
         (snd (read_clock s))).

(** The state after the events are processed in turn, each from the state
    the one before it left, whether it returned or raised. *)
Definition processed_all (events : list CheckoutEvent) (s : Sys) : Sys :=
  foldl (fun st event => snd (Main.process_checkout_event event st)) s events.

(** The target devices of an event: the configured ids, or else all the
    thermostats of the listing. *)
Definition resolved_device_ids (st : Settings) (devices : list Thermostat)
  : list string :=
  match Main.device_ids_list st with
  | [] => map device_id devices
  | ids => ids
  end.

End Props.

(** ** Concrete inputs *)

Module Sample.

Import Poller Env Obj Run.

(** 2024-01-01T12:00:00Z *)
Definition noon : Z := 19723 * DAY + 12 * HOUR.

Definition poller : CalendarPoller :=
  Poller.init "webcal://example.test/checkouts.ics" DEFAULT_TRIGGER_KEYWORD.

Definition event (res_id : string) (triggered : bool) : CheckoutEvent :=
  {| reservation_id := res_id;
     event_start := utc (noon - 5 * MINUTE);
     event_end := utc (noon + HOUR);
     property_name := "Beach House";
     guest_name := "Ada";
     summary := "Guest Check-out";
     description := "Reservation: " +:+ res_id;
     has_trigger_keyword := triggered |}.

Definition timed (summary description : string) (start : Z)
    (end_ : option Z) : Component :=
  {| Poller.name := "VEVENT";
     get_summary := Some summary;
     get_description := Some description;
     get_dtstart := Some (DDateTime (utc start));
     get_dtend := (fun t => DDateTime (utc t)) <$> end_ |}.

(** In the window, with a checkout summary and the trigger keyword. *)
Definition checkout_entry : Component :=
  timed "Guest Check-out"
    ("Reservation: ABC123" +:+ NEWLINE +:+ "TURN_OFF_THERMOSTATS")
    (noon - 5 * MINUTE) (Some (noon + HOUR)).

(** In the window, with no checkout indicator and no trigger keyword. *)
Definition dinner_entry : Component :=
  timed "Dinner" "" (noon - 5 * MINUTE) None.

Definition thermostat_json (id custom : string) : DeviceJson :=
  {| json_name := Some ("enterprises/p1/devices/" +:+ id);
     json_thermostat_mode := Some (Some "HEAT");
     json_custom_name := Some custom;
     json_temperature := Some "21.5";
     json_humidity := None |}.

(** A world whose clock stands at noon, whose token endpoint hands out a
    token good for one hour, whose listing has two thermostats, and whose
    device commands are all answered with [status]. *)
Definition world_with (status : Z) (feed_reply : reply (option Calendar))
  : World :=
  {| clock := fun _ => noon;
     feed := fun _ => feed_reply;
     token_endpoint := fun _ => Some ("tok", Some (noon + HOUR));
     device_list := fun _ =>
       Response 200
         (Some [thermostat_json "dev-a" "Hall"; thermostat_json "dev-b" "Attic"]);
     device_command := fun _ => Response status tt;
     sink := fun _ => Some true;
     REFRESH_THRESHOLD := 225 * SECOND;
     strict_status := true |}.

Definition the_settings (ids : string) : Settings :=
  {| nest_device_ids := ids;
     checkout_buffer_minutes := 30;
     smtp_enabled := false;
     smtp_host := "smtp.gmail.com";
     smtp_port := 587;
     smtp_username := "";
     smtp_password := "";
     smtp_to_email := "" |}.

(** The process when it starts: nothing cached, nothing held. *)
Definition boot (w : World) (ids : string) : Sys :=
  {| world := w;
     trace := no_trace;
     settings := the_settings ids;
     token_manager :=
       {| client_id := "id"; client_secret := "secret";
          refresh_token := "refresh"; _credentials := None;
          _last_refresh := None |};
     nest_controller := {| project_id := "p1"; _devices_cache := None |};
     calendar_poller := poller;
     globals :=
       {| last_poll_time := None; last_action_time := None;
          last_action_result := None |} |}.

(** The process holding a token that expires at [expiry]. *)
Definition holding (w : World) (expiry : option Z) : Sys :=
  with_token_manager
    {| client_id := "id"; client_secret := "secret";
       refresh_token := "refresh";
       _credentials := Some {| token := Some "old"; expiry := expiry |};
       _last_refresh := None |}
    (boot w "").

(** The process holding a token that expired an hour before noon, in a
    world whose token endpoint refuses every exchange. *)
Definition failing_endpoint : Sys :=
  holding
    {| clock := fun _ => noon;
       feed := fun _ => Fails ConnectError;
       token_endpoint := fun _ => None;
       device_list := fun _ => Fails ConnectError;
       device_command := fun _ => Fails ConnectError;
       sink := fun _ => None;
       REFRESH_THRESHOLD := 225 * SECOND;
       strict_status := true |}
    (Some (noon - HOUR)).

(** A world whose device API answers every request with 401. *)
Definition refusing_world : World :=
  {| clock := fun _ => noon;
     feed := fun _ => Fails ConnectError;
     token_endpoint := fun _ => Some ("tok", Some (noon + HOUR));
     device_list := fun _ => Response 401 None;
     device_command := fun _ => Response 401 tt;
     sink := fun _ => Some true;
     REFRESH_THRESHOLD := 225 * SECOND;
     strict_status := true |}.

(** The thermostats the first listing gives, and the state it leaves. *)
Definition listing (s : Sys) : list Thermostat * Sys :=
  match Nest.list_devices false s with
  | (Ok devices, s1) => (devices, s1)
  | (Raise _, s1) => ([], s1)
  end.

End Sample.

(** * Properties of the ledger *)

Section Ledger.

Import Poller Props.

Implicit Types (p : CalendarPoller) (e : CheckoutEvent).

Lemma filter_unprocessed_from p (acc events : list CheckoutEvent) :
  foldl
    (fun unprocessed event =>
       if bool_decide (reservation_id event ∈ _processed_events p)
       then unprocessed
       else unprocessed ++ [event])
    acc events
  = acc ++ List.filter (unmarked p) events.
Proof.
  revert acc. induction events as [|e events IH]; intros acc; simpl.
  - by rewrite app_nil_r.
  - rewrite IH. unfold unmarked at 2.
    destruct (bool_decide _); simpl; [done|].
    by rewrite <- app_assoc.
Qed.

Lemma filter_unprocessed_filter p events :
  filter_unprocessed p events = List.filter (unmarked p) events.
Proof. unfold filter_unprocessed. by rewrite filter_unprocessed_from. Qed.

Lemma filter_unprocessed_app p l1 l2 :
  filter_unprocessed p (l1 ++ l2)
  = filter_unprocessed p l1 ++ filter_unprocessed p l2.
Proof. rewrite !filter_unprocessed_filter. apply List.filter_app. Qed.

Lemma filter_unprocessed_cons_unmarked p e l :
  reservation_id e ∉ _processed_events p ->
  filter_unprocessed p (e :: l) = e :: filter_unprocessed p l.
Proof.
  intros H. rewrite !filter_unprocessed_filter. simpl.
  unfold unmarked at 1. by rewrite bool_decide_eq_false_2.
Qed.

Lemma elem_of_filter_unprocessed p events e :
  e ∈ filter_unprocessed p events <->
  e ∈ events /\ reservation_id e ∉ _processed_events p.
Proof.
  rewrite filter_unprocessed_filter, !list_elem_of_In, List.filter_In.
  unfold unmarked. rewrite negb_true_iff, bool_decide_eq_false. done.
Qed.

End Ledger.

Section Cleanup.

Import Poller Props.

Implicit Types (p : CalendarPoller) (e : CheckoutEvent).

Lemma elem_of_to_remove now h p res_id :
  res_id ∈ to_remove now h p <->
  exists t, _processed_timestamps p !! res_id = Some t
            /\ t < now - timedelta_hours h.
Proof.
  unfold to_remove. rewrite list_elem_of_fmap. split.
  - intros [[k t] [-> Hin]]. simpl.
    apply list_elem_of_In, List.filter_In in Hin as [Hin Hlt].
    apply list_elem_of_In, elem_of_map_to_list in Hin.
    exists t. split; [done|]. simpl in Hlt. lia.
  - intros (t & Hl & Hlt). exists (res_id, t). split; [done|].
    apply list_elem_of_In, List.filter_In. split.
    + by apply list_elem_of_In, elem_of_map_to_list.
    + simpl. lia.
Qed.

Lemma discard_all_events p (l : list string) :
  _processed_events (foldl (fun p res_id => discard res_id p) p l)
  = _processed_events p ∖ list_to_set l.
Proof.
  revert p. induction l as [|k l IH]; intros p; simpl.
  - set_solver.
  - rewrite IH. simpl. set_solver.
Qed.

Lemma discard_all_timestamps p (l : list string) res_id :
  _processed_timestamps (foldl (fun p res_id => discard res_id p) p l)
    !! res_id
  = if bool_decide (res_id ∈ l) then None
    else _processed_timestamps p !! res_id.
Proof.
  revert p. induction l as [|k l IH]; intros p; simpl.
  - done.
  - rewrite IH. simpl.
    destruct (decide (res_id = k)) as [->|Hne].
    + rewrite lookup_delete_eq.
      rewrite (bool_decide_eq_true_2 (k ∈ k :: l)) by set_solver.
      by destruct (bool_decide _).
    + rewrite lookup_delete_ne by done.
      destruct (decide (res_id ∈ l)).
      * rewrite !bool_decide_eq_true_2 by set_solver. done.
      * rewrite !bool_decide_eq_false_2 by set_solver. done.
Qed.

Lemma elem_of_cleanup now h p res_id :
  res_id ∈ _processed_events (cleanup_old_processed now h p) <->
  res_id ∈ _processed_events p /\ res_id ∉ to_remove now h p.
Proof.
  unfold cleanup_old_processed. rewrite discard_all_events. set_solver.
Qed.

Lemma elem_of_mark now e p res_id :
  res_id ∈ _processed_events (mark_processed now e p) <->
  res_id = reservation_id e \/ res_id ∈ _processed_events p.
Proof. simpl. set_solver. Qed.

(** An id that is marked stays marked as long as no operation evicts it. *)
Lemma marked_until_evicted res_id ops p :
  res_id ∈ _processed_events p ->
  never_evicted res_id p ops = true ->
  res_id ∈ _processed_events (run_ops p ops).
Proof.
  revert p. induction ops as [|op ops IH]; intros p Hin Hne; simpl in *.
  - done.
  - apply andb_true_iff in Hne as [Hop Hrest].
    apply IH; [|done].
    destruct op as [now e|now h]; simpl in *.
    + set_solver.
    + apply elem_of_cleanup. split; [done|].
      apply negb_true_iff, bool_decide_eq_false in Hop. done.
Qed.

End Cleanup.

Section LedgerClaims.

Import Poller Props.

Implicit Types (p : CalendarPoller) (e : CheckoutEvent).

(** C1. Ledger exclusion.  [filter_unprocessed] never returns an event
    whose id is marked in the ledger it is called on; and once
    [mark_processed now e] has been applied, whatever marks and cleanups
    follow, as long as none of the cleanups evicts the id of [e], every
    call of [filter_unprocessed], on any list of events, returns no event
    with that id. *)
Theorem ledger_exclusion :
  (forall p events e',
      e' ∈ filter_unprocessed p events ->
      reservation_id e' ∉ _processed_events p)
  /\ (forall p now e ops events e',
        never_evicted (reservation_id e) (mark_processed now e p) ops = true ->
        e' ∈ filter_unprocessed (run_ops (mark_processed now e p) ops) events ->
        reservation_id e' <> reservation_id e).
Proof.
  split.
  - intros p events e' H. by apply elem_of_filter_unprocessed in H as [_ H].
  - intros p now e ops events e' Hne Hin Heq.
    apply elem_of_filter_unprocessed in Hin as [_ Hin]. apply Hin.
    rewrite Heq. apply marked_until_evicted; [|done].
    apply elem_of_mark. by left.
Qed.

(** The ledger after a mark of ["R1"] at noon, a cleanup twelve hours
    later and a mark of another id: ["R1"] has not been evicted, and the
    filter drops both events that carry it. *)
Lemma ledger_exclusion_witness :
  let ops := [OpCleanup (Sample.noon + 12 * HOUR) 24;
              OpMark (Sample.noon + 13 * HOUR) (Sample.event "R2" true)] in
  let p := mark_processed Sample.noon (Sample.event "R1" true) Sample.poller in
  let events := [Sample.event "R1" true; Sample.event "R3" true;
                 Sample.event "R1" false] in
  never_evicted "R1" p ops = true
  /\ forall e', e' ∈ filter_unprocessed (run_ops p ops) events ->
                reservation_id e' <> "R1".
Proof.
  intros ops p events.
  split; [vm_compute; reflexivity|].
  intros e' H.
  apply (proj2 ledger_exclusion Sample.poller Sample.noon
           (Sample.event "R1" true) ops events e');
    [vm_compute; reflexivity|exact H].
Defined.

(** C10. No deduplication within a batch: two events of the input that
    share a reservation id that is not marked are both in the output, at
    their places; the filter only reads the ledger. *)
Theorem filter_unprocessed_keeps_duplicates p e1 e2 l1 l2 l3 :
  reservation_id e1 = reservation_id e2 ->
  reservation_id e1 ∉ _processed_events p ->
  filter_unprocessed p (l1 ++ e1 :: l2 ++ e2 :: l3)
  = filter_unprocessed p l1 ++ e1 :: filter_unprocessed p l2
      ++ e2 :: filter_unprocessed p l3.
Proof.
  intros Heq H1.
  assert (H2 : reservation_id e2 ∉ _processed_events p) by (by rewrite <- Heq).
  rewrite filter_unprocessed_app, filter_unprocessed_cons_unmarked by done.
  rewrite filter_unprocessed_app, filter_unprocessed_cons_unmarked by done.
  done.
Qed.

Lemma filter_unprocessed_keeps_duplicates_witness :
  let p := mark_processed Sample.noon (Sample.event "R1" true) Sample.poller in
  let a := Sample.event "R2" true in
  let b := Sample.event "R2" false in
  let c := Sample.event "R1" true in
  filter_unprocessed p ([c] ++ a :: [c] ++ b :: [a]) = [a; b; a].
Proof.
  intros p a b c.
  rewrite (filter_unprocessed_keeps_duplicates p a b [c] [c] [a]).
  - vm_compute. reflexivity.
  - reflexivity.
  - vm_compute. intros H. discriminate H.
Defined.

End LedgerClaims.

Section Eviction.

Import Poller Props.

Implicit Types (p : CalendarPoller) (e : CheckoutEvent).

(** C5, as the code has it.  Eviction is aging with a strict cutoff: for
    an id marked at [T], a cleanup that reads the clock at [now] keeps the
    id in the processed set exactly when [now <= T + max_age_hours]; it
    removes it when [now] is strictly later. *)
Theorem cleanup_cutoff_strict p T e now max_age_hours :
  reservation_id e
    ∈ _processed_events
        (cleanup_old_processed now max_age_hours (mark_processed T e p))
  <-> now <= T + max_age_hours * HOUR.
Proof.
  rewrite elem_of_cleanup, elem_of_to_remove. simpl.
  rewrite lookup_insert_eq. unfold timedelta_hours. split.
  - intros [_ Hno].
    destruct (Z_lt_le_dec (T + max_age_hours * HOUR) now) as [Hlt|]; [|done].
    exfalso. apply Hno. exists T. split; [done|lia].
  - intros Hle. split; [set_solver|].
    intros (t & Ht & Hlt). injection Ht as <-. lia.
Qed.

(** C5, as the spec has it, fails on the boundary: the cleanup runs at
    [T + max_age_hours], which is "at or after" it, and the id marked at
    [T] is still in the processed set. *)
Lemma cleanup_cutoff_inclusive_fails :
  let T := Sample.noon in
  let max_age_hours := 24 in
  let now := T + max_age_hours * HOUR in
  T + max_age_hours * HOUR <= now
  /\ "R1" ∈ _processed_events
              (cleanup_old_processed now max_age_hours
                 (mark_processed T (Sample.event "R1" true) Sample.poller)).
Proof.
  split; [vm_compute; discriminate|].
  apply (bool_decide_unpack _). vm_compute. exact I.
Qed.

End Eviction.

(** * Properties of the time-window policy *)

Section Policy.

Import Poller Props.

Implicit Types (p : CalendarPoller) (c : Component).

Lemma parse_events_from p now buffer_minutes acc (l : list Component) :
  foldl
    (fun events component =>
       match parse_component p now buffer_minutes component with
       | Selected event => events ++ [event]
       | Skipped | Raised => events
       end)
    acc l
  = acc ++ omap (selection p now buffer_minutes) l.
Proof.
  revert acc. induction l as [|c l IH]; intros acc; simpl.
  - by rewrite app_nil_r.
  - rewrite IH. unfold selection at 2.
    destruct (parse_component _ _ _ c); simpl; try done.
    by rewrite <- app_assoc.
Qed.

Lemma parse_events_omap p now calendar buffer_minutes :
  parse_events p now calendar buffer_minutes
  = omap (selection p now buffer_minutes) (walk calendar).
Proof. unfold parse_events. by rewrite parse_events_from. Qed.

Lemma instant_aware ds d :
  _ensure_timezone_aware (DDateTime ds) = Some d -> instant d = instant ds.
Proof.
  unfold _ensure_timezone_aware, instant.
  destruct (tzoffset ds) eqn:E; intros [= <-]; simpl; rewrite ?E; simpl; lia.
Qed.

Lemma aware_is_some ds : is_Some (_ensure_timezone_aware (DDateTime ds)).
Proof. simpl. destruct (tzoffset ds); eauto. Qed.

Lemma window_reflect now buffer_minutes (start end_ : datetime) :
  is_in_window now buffer_minutes start || is_happening_now now start end_
    = true
  <-> in_time_window now buffer_minutes (instant start) (instant end_).
Proof.
  unfold is_in_window, is_happening_now, in_time_window, timedelta_minutes.
  rewrite orb_true_iff, !andb_true_iff, !Z.leb_le. tauto.
Qed.

Lemma content_reflect keyword c :
  is_checkout (default "" (get_summary c))
  || has_trigger keyword (default "" (get_description c)) = true
  <-> has_checkout_content keyword c.
Proof.
  unfold is_checkout, has_trigger, has_checkout_content.
  rewrite !orb_true_iff. tauto.
Qed.

(** C2, as the code has it.  [parse_events] returns the events of the
    components it selects, in the order of the walk; and a timed entry (a
    VEVENT whose start, and end when it has one, are datetimes) is selected
    exactly when it is in the time window (its start is in
    [[now - buffer_minutes, now]], or [now] is in [[start, end]]) and its
    content is that of a checkout (an indicator in the summary or the
    trigger keyword in the description).  So an entry outside the window
    is excluded whatever its summary and description. *)
Theorem parse_events_window_and_content p now buffer_minutes calendar c ds de :
  name c = "VEVENT" ->
  get_dtstart c = Some (DDateTime ds) ->
  get_dtend c = DDateTime <$> de ->
  parse_events p now calendar buffer_minutes
    = omap (selection p now buffer_minutes) (walk calendar)
  /\ (is_selected (parse_component p now buffer_minutes c)
      <-> in_time_window now buffer_minutes (entry_start ds) (entry_end ds de)
          /\ has_checkout_content (trigger_keyword p) c).
Proof.
  intros Hname Hstart Hend. split; [apply parse_events_omap|].
  unfold parse_component. rewrite Hname, Hstart, Hend.
  rewrite bool_decide_eq_true_2 by done. simpl negb. cbv iota.
  destruct (aware_is_some ds) as [start Hs]. rewrite Hs.
  pose proof (instant_aware _ _ Hs) as His.
  assert (exists end_, end_of start (DDateTime <$> de) = Some end_
                       /\ instant end_ = entry_end ds de)
    as (end_ & He & Hie).
  { destruct de as [d|]; simpl.
    - destruct (aware_is_some d) as [d' Hd]. exists d'. split; [done|].
      by apply instant_aware.
    - eexists. split; [done|]. unfold instant, dt_add, timedelta_hours in *.
      simpl. lia. }
  rewrite He. unfold entry_start. rewrite <- His, <- Hie.
  rewrite <- window_reflect, <- content_reflect.
  destruct (is_in_window _ _ _ || is_happening_now _ _ _); simpl.
  - destruct (is_checkout _ || has_trigger _ _); simpl.
    + split; [done|]. intros _. eexists. done.
    + split; [intros [e [=]]|intros [_ [=]]].
  - split; [intros [e [=]]|intros [[=] _]].
Qed.

(** The checkout entry of the samples, five minutes old at noon, with the
    default buffer: it is in the window, it has the content, it is
    selected. *)
Lemma parse_events_window_and_content_witness :
  is_selected
    (parse_component Sample.poller Sample.noon 30 Sample.checkout_entry)
  /\ length (parse_events Sample.poller Sample.noon
               {| walk := [Sample.dinner_entry; Sample.checkout_entry] |} 30)
     = 1%nat.
Proof.
  pose proof (parse_events_window_and_content Sample.poller Sample.noon 30
                {| walk := [Sample.dinner_entry; Sample.checkout_entry] |}
                Sample.checkout_entry
                (utc (Sample.noon - 5 * MINUTE))
                (Some (utc (Sample.noon + HOUR)))
                eq_refl eq_refl eq_refl) as [Hev Hsel].
  split.
  - apply Hsel. split.
    + left. vm_compute. split; discriminate.
    + left. vm_compute. reflexivity.
  - rewrite Hev. vm_compute. reflexivity.
Defined.

(** C2, as the spec has it, fails: the dinner entry of the samples started
    five minutes before noon, so it is in the window at noon with a buffer
    of 30 minutes, and [parse_events] does not select it. *)
Lemma window_alone_does_not_select :
  in_time_window Sample.noon 30
    (entry_start (utc (Sample.noon - 5 * MINUTE)))
    (entry_end (utc (Sample.noon - 5 * MINUTE)) None)
  /\ get_dtstart Sample.dinner_entry
     = Some (DDateTime (utc (Sample.noon - 5 * MINUTE)))
  /\ parse_events Sample.poller Sample.noon
       {| walk := [Sample.dinner_entry] |} 30 = [].
Proof.
  split; [|split].
  - left. vm_compute. split; discriminate.
  - reflexivity.
  - vm_compute. reflexivity.
Qed.

End Policy.

(** * The monad: what a computation keeps *)

Section Frames.

Import Env Obj Run Props.
Local Open Scope run_scope.

Context {X : Type} (f : Sys -> X).

Lemma keeps_ret {A} (a : A) : keeps f (ret a).
Proof. intros s. reflexivity. Qed.

Lemma keeps_raise {A} (e : exn) : keeps f (@raise A e).
Proof. intros s. reflexivity. Qed.

Lemma keeps_get_sys : keeps f get_sys.
Proof. intros s. reflexivity. Qed.

Lemma keeps_bind {A B} (m : M A) (k : A -> M B) :
  keeps f m -> (forall a, keeps f (k a)) -> keeps f (bind m k).
Proof.
  intros Hm Hk s. unfold bind. specialize (Hm s).
  destruct (m s) as [[a|e] s1]; simpl in *; [|done].
  by rewrite Hk.
Qed.

Lemma keeps_try_except {A} (m : M A) (h : exn -> M A) :
  keeps f m -> (forall e, keeps f (h e)) -> keeps f (try_except m h).
Proof.
  intros Hm Hh s. unfold try_except. specialize (Hm s).
  destruct (m s) as [[a|e] s1]; simpl in *; [done|].
  by rewrite Hh.
Qed.

Lemma keeps_for_each {A} (xs : list A) (body : A -> M unit) :
  (forall x, keeps f (body x)) -> keeps f (for_each xs body).
Proof.
  intros Hb. induction xs as [|x xs IH]; simpl.
  - apply keeps_ret.
  - apply keeps_bind; [apply Hb|]. intros _. apply IH.
Qed.

Lemma keeps_retry_from {A} (more : nat) (body : M A) :
  keeps f body -> keeps f (Nest.retry_from more body).
Proof.
  intros Hb. induction more as [|more IH]; simpl.
  - apply keeps_try_except; [done|]. intros e.
    destruct (Nest.retryable e); apply keeps_raise.
  - apply keeps_try_except; [done|]. intros e.
    destruct (Nest.retryable e); [apply IH|apply keeps_raise].
Qed.

Lemma keeps_raise_for_status status : keeps f (raise_for_status status).
Proof.
  intros s. unfold raise_for_status.
  repeat match goal with |- context [if ?b then _ else _] => destruct b end;
    reflexivity.
Qed.

End Frames.

(** Splits a goal [keeps f m] along the structure of [m]; what is left are
    the updates of the state, and [f] reads through them. *)
Create HintDb keeps discriminated.

Ltac keeps_step :=
  first
    [ solve [auto 1 with keeps nocore]
    | apply keeps_ret
    | apply keeps_raise
    | apply keeps_get_sys
    | apply keeps_raise_for_status
    | apply keeps_bind; [|intros ?]
    | apply keeps_try_except; [|intros ?]
    | apply keeps_retry_from
    | match goal with
      | |- Props.keeps _ (match ?x with _ => _ end) => destruct x
      end
    | solve [intros ?; simpl; auto] ].

Ltac keeps := repeat keeps_step.

(** What the token manager and the device client keep: every part of the
    state that reads through their updates (of the trace, of the token
    manager, of the device cache). *)
Section DeviceClientFrame.

Import Env Obj Run Props.

Context {X : Type} (f : Sys -> X).
Hypothesis through_trace : forall t s, f (with_trace t s) = f s.
Hypothesis through_token_manager : forall tm s, f (with_token_manager tm s) = f s.
Hypothesis through_nest_controller :
  forall nc s, f (with_nest_controller nc s) = f s.

Lemma get_valid_token_keeps : keeps f Auth.get_valid_token.
Proof.
  unfold Auth.get_valid_token, Auth.needs_refresh, Auth.expired, Auth.refresh.
  keeps.
Qed.
Hint Resolve get_valid_token_keeps : keeps.

Lemma get_headers_keeps : keeps f Nest._get_headers.
Proof. unfold Nest._get_headers, Auth.get_auth_header. keeps. Qed.
Hint Resolve get_headers_keeps : keeps.

Lemma fetch_devices_keeps : keeps f Nest.fetch_devices.
Proof. unfold Nest.fetch_devices. keeps. Qed.
Hint Resolve fetch_devices_keeps : keeps.

Lemma list_devices_keeps force : keeps f (Nest.list_devices force).
Proof.
  unfold Nest.list_devices, Nest.retry, Nest.list_devices_once.
  keeps.
Qed.

Lemma set_thermostat_mode_once_keeps device_id mode :
  keeps f (Nest.set_thermostat_mode_once device_id mode).
Proof.
  unfold Nest.set_thermostat_mode_once. keeps.
Qed.
Hint Resolve set_thermostat_mode_once_keeps : keeps.

Lemma turn_off_thermostat_keeps device_id :
  keeps f (Nest.turn_off_thermostat device_id).
Proof.
  unfold Nest.turn_off_thermostat, Nest.set_thermostat_mode, Nest.retry.
  keeps.
Qed.
Hint Resolve turn_off_thermostat_keeps : keeps.

Lemma turn_off_loop_keeps device_ids results :
  keeps f (Nest.turn_off_loop device_ids results).
Proof.
  revert results. induction device_ids as [|d ids IH]; intros results; simpl.
  - keeps.
  - keeps.
Qed.

End DeviceClientFrame.

(** * Dictionaries *)

Section Dictionaries.

Import PyDict.

Context {V : Type}.
Implicit Types (d : dict V) (k : string) (v : V).

Lemma get_set_eq k v d : get k (set k v d) = Some v.
Proof.
  induction d as [|[k' v'] d IH]; simpl.
  - by rewrite bool_decide_eq_true_2.
  - destruct (bool_decide (k = k')) eqn:E; simpl; rewrite ?E; [|done].
    by rewrite bool_decide_eq_true_2.
Qed.

Lemma get_set_ne k k' v d : k <> k' -> get k' (set k v d) = get k' d.
Proof.
  intros Hne. induction d as [|[k0 v0] d IH]; simpl.
  - by rewrite bool_decide_eq_false_2.
  - destruct (bool_decide (k = k0)) eqn:E; simpl.
    + apply bool_decide_eq_true in E as <-.
      by rewrite !bool_decide_eq_false_2.
    + by rewrite IH.
Qed.

Lemma elem_of_keys_set k k' v d :
  k' ∈ keys (set k v d) <-> k' = k \/ k' ∈ keys d.
Proof.
  unfold keys. induction d as [|[k0 v0] d IH]; simpl.
  - set_solver.
  - destruct (bool_decide (k = k0)) eqn:E; simpl.
    + apply bool_decide_eq_true in E as <-. set_solver.
    + rewrite !elem_of_cons, IH. tauto.
Qed.

Lemma NoDup_keys_set k v d : NoDup (keys d) -> NoDup (keys (set k v d)).
Proof.
  unfold keys. induction d as [|[k0 v0] d IH]; simpl; intros Hnd.
  - apply NoDup_singleton.
  - apply NoDup_cons in Hnd as [Hni Hnd].
    destruct (bool_decide (k = k0)) eqn:E; simpl.
    + apply bool_decide_eq_true in E as <-. by apply NoDup_cons.
    + apply bool_decide_eq_false in E.
      apply NoDup_cons. split; [|by apply IH].
      intros Hin. apply (elem_of_keys_set k k0 v d) in Hin. naive_solver.
Qed.

Lemma elem_of_keys_fill k d (items : list (string * V)) :
  k ∈ keys (fill d items) <-> k ∈ keys d \/ k ∈ items.*1.
Proof.
  revert d. induction items as [|[k0 v0] items IH]; intros d; simpl.
  - set_solver.
  - unfold fill in *. simpl. rewrite IH, elem_of_keys_set, elem_of_cons. tauto.
Qed.

Lemma NoDup_keys_fill d (items : list (string * V)) :
  NoDup (keys d) -> NoDup (keys (fill d items)).
Proof.
  revert d. induction items as [|[k0 v0] items IH]; intros d Hnd; simpl.
  - done.
  - apply IH. by apply NoDup_keys_set.
Qed.

Lemma get_fill_notin k d (items : list (string * V)) :
  k ∉ items.*1 -> get k (fill d items) = get k d.
Proof.
  revert d. induction items as [|[k0 v0] items IH]; intros d Hni; simpl.
  - done.
  - unfold fill in *. simpl. rewrite IH by set_solver.
    apply get_set_ne. set_solver.
Qed.

Lemma fill_cons d (item : string * V) (items : list (string * V)) :
  fill d (item :: items) = fill (set (fst item) (snd item) d) items.
Proof. reflexivity. Qed.

Lemma fill_app d (l1 l2 : list (string * V)) :
  fill d (l1 ++ l2) = fill (fill d l1) l2.
Proof. apply foldl_app. Qed.

(** The number of keys after filling an empty dictionary: that of the
    distinct keys of the items. *)
Lemma len_fill_empty (items : list (string * V)) :
  len (fill [] items) = length (remove_dups items.*1).
Proof.
  unfold len. rewrite <- (length_fmap fst).
  apply Permutation_length, NoDup_Permutation.
  - apply (NoDup_keys_fill []). constructor.
  - apply NoDup_remove_dups.
  - intros k. etrans; [apply (elem_of_keys_fill k [] items)|].
    rewrite elem_of_remove_dups. unfold keys. set_solver.
Qed.

End Dictionaries.

(** * Properties of the fan-out *)

Section FanOut.

Import Env Obj Run Props.

Lemma attempt_outcome device_id s :
  try_except (Nest.turn_off_thermostat device_id) (fun _ => ret false) s
  = (Ok (fst (individual_outcome device_id s)),
     snd (individual_outcome device_id s)).
Proof.
  unfold try_except, individual_outcome.
  by destruct (Nest.turn_off_thermostat device_id s) as [[b|e] s'].
Qed.

Lemma turn_off_loop_outcomes device_ids results s :
  Nest.turn_off_loop device_ids results s
  = (Ok (PyDict.fill results (outcomes device_ids s)),
     state_after device_ids s).
Proof.
  revert results s.
  induction device_ids as [|d ids IH]; intros results s; simpl; [done|].
  unfold bind. rewrite attempt_outcome. apply IH.
Qed.

Lemma outcomes_ids device_ids s : (outcomes device_ids s).*1 = device_ids.
Proof.
  revert s. induction device_ids as [|d ids IH]; intros s; simpl; [done|].
  by rewrite IH.
Qed.

Lemma state_after_app l1 l2 s :
  state_after (l1 ++ l2) s = state_after l2 (state_after l1 s).
Proof. apply foldl_app. Qed.

Lemma outcomes_app l1 l2 s :
  outcomes (l1 ++ l2) s = outcomes l1 s ++ outcomes l2 (state_after l1 s).
Proof.
  revert s. induction l1 as [|d l1 IH]; intros s; simpl; [done|].
  by rewrite IH.
Qed.

(** The fan-out never raises. *)
Lemma turn_off_thermostats_returns device_ids :
  returns (Nest.turn_off_thermostats device_ids).
Proof.
  intros s. unfold Nest.turn_off_thermostats.
  rewrite turn_off_loop_outcomes. eauto.
Qed.

(** C3, as the code has it.  The fan-out over any list of device ids
    returns (nothing propagates out of it), with a mapping that has one
    entry for each distinct id of the list: as many entries as ids when no
    id occurs twice.  Every id of the list has an entry, and the entry is
    the outcome of the last turn-off of that id: true when the call
    returned true, false when it returned false or raised, the call being
    run from the state the devices before it left, whatever happened to
    them. *)
Theorem turn_off_thermostats_accounting device_ids s :
  exists results,
    Nest.turn_off_thermostats device_ids s
      = (Ok results, state_after device_ids s)
    /\ PyDict.len results = length (remove_dups device_ids)
    /\ (forall device_id,
          device_id ∈ device_ids -> is_Some (PyDict.get device_id results))
    /\ (forall k device_id,
          device_ids !! k = Some device_id ->
          device_id ∉ drop (S k) device_ids ->
          PyDict.get device_id results
          = Some (fst (individual_outcome device_id
                         (state_after (take k device_ids) s)))).
Proof.
  exists (PyDict.fill [] (outcomes device_ids s)).
  split; [apply turn_off_loop_outcomes|].
  assert (Hlast : forall k device_id,
             device_ids !! k = Some device_id ->
             device_id ∉ drop (S k) device_ids ->
             PyDict.get device_id (PyDict.fill [] (outcomes device_ids s))
             = Some (fst (individual_outcome device_id
                            (state_after (take k device_ids) s)))).
  { intros k d Hk Hni.
    rewrite <- (take_drop_middle device_ids k d Hk) at 1.
    rewrite outcomes_app. simpl outcomes at 2.
    rewrite fill_app, fill_cons.
    rewrite get_fill_notin by (by rewrite outcomes_ids).
    apply get_set_eq. }
  split; [|split; [|exact Hlast]].
  - by rewrite len_fill_empty, outcomes_ids.
  - intros d Hin.
    assert (exists k, device_ids !! k = Some d /\ d ∉ drop (S k) device_ids)
      as (k & Hk & Hni).
    { clear Hlast. induction device_ids as [|d0 ids IH].
      - by apply elem_of_nil in Hin.
      - destruct (decide (d ∈ ids)) as [Hin'|Hni].
        + destruct (IH Hin') as (k & Hk & Hni). exists (S k). done.
        + apply elem_of_cons in Hin as [->|]; [|done].
          exists 0%nat. simpl. by rewrite drop_0. }
    rewrite (Hlast k d Hk Hni). eauto.
Qed.

(** C3, as the spec has it, fails on the size: the id ["dev-a"] is listed
    twice (the setting [NEST_DEVICE_IDS=dev-a,dev-a] gives this list), so
    N is 2, and the mapping returned has one entry. *)
Lemma turn_off_thermostats_size_fails :
  let s := Sample.boot (Sample.world_with 200 (Fails ConnectError)) "dev-a,dev-a" in
  let device_ids := Main.device_ids_list (settings s) in
  exists results,
    fst (Nest.turn_off_thermostats device_ids s) = Ok results
    /\ length device_ids = 2%nat
    /\ PyDict.len results = 1%nat.
Proof. eexists. vm_compute. split; [reflexivity|]. split; reflexivity. Qed.

End FanOut.

(** * Properties of the retry policy and of the mode command *)

Section Retry.

Import Env Obj Run Props.

Lemma retryable_transient e : Nest.retryable e = true <-> transient e.
Proof.
  unfold transient. destruct e; simpl; split; try done; eauto;
    intros [[st [=]]|[=]].
Qed.

Lemma retry_from_ok {A} (body : M A) more s a s1 :
  body s = (Ok a, s1) -> Nest.retry_from more body s = (Ok a, s1).
Proof. intros H. destruct more; simpl; unfold try_except; by rewrite H. Qed.

Lemma retry_from_raise {A} (body : M A) more s e s1 :
  body s = (Raise e, s1) ->
  Nest.retry_from more body s
  = if Nest.retryable e
    then match more with
         | O => (Raise (RetryError e), s1)
         | S m => Nest.retry_from m body s1
         end
    else (Raise e, s1).
Proof.
  intros H. destruct more; simpl; unfold try_except; rewrite H;
    by destruct (Nest.retryable e).
Qed.

(** A result of the decorated call is the result of one of its attempts. *)
Lemma retry_from_result {A} (body : M A) more s a s' :
  Nest.retry_from more body s = (Ok a, s') ->
  exists s0, body s0 = (Ok a, s').
Proof.
  revert s. induction more as [|more IH]; intros s; cbv zeta;
    destruct (body s) as [[a0|e] s1] eqn:Hb.
  - rewrite (retry_from_ok _ _ _ _ _ Hb). intros [= <- <-]. eauto.
  - rewrite (retry_from_raise _ _ _ _ _ Hb).
    by destruct (Nest.retryable e).
  - rewrite (retry_from_ok _ _ _ _ _ Hb). intros [= <- <-]. eauto.
  - rewrite (retry_from_raise _ _ _ _ _ Hb).
    destruct (Nest.retryable e); [apply IH|done].
Qed.

Lemma status_raises_error w status :
  400 <= status <= 599 -> status_raises w status = true.
Proof. unfold status_raises. intros H. lia. Qed.

Lemma raise_for_status_spec status s :
  raise_for_status status s
  = if status_raises (world s) status
    then (Raise (HTTPStatusError status), s)
    else (Ok tt, s).
Proof.
  unfold raise_for_status, status_raises.
  destruct ((200 <=? status) && (status <=? 299)); simpl; [done|].
  destruct ((400 <=? status) && (status <=? 599)); simpl; [done|].
  by destruct (strict_status (world s)).
Qed.

(** One attempt of the mode command, once the headers are there. *)
Lemma set_thermostat_mode_once_spec device_id mode s h s1 :
  Nest._get_headers s = (Ok h, s1) ->
  Nest.set_thermostat_mode_once device_id mode s
  = match next_command_reply s1 with
    | Fails e => (Raise e, posted device_id mode s1)
    | Response status _ =>
        if status =? 200 then (Ok true, posted device_id mode s1)
        else if status_raises (world s1) status
             then (Raise (HTTPStatusError status), posted device_id mode s1)
             else (Ok false, posted device_id mode s1)
    end.
Proof.
  intros Hh. unfold Nest.set_thermostat_mode_once, bind. rewrite Hh.
  unfold next_command_reply, posted. simpl.
  destruct (device_command _ _) as [status []|e]; [|done].
  destruct (status =? 200); [done|].
  rewrite raise_for_status_spec. simpl.
  by destruct (status_raises _ _).
Qed.

Lemma set_thermostat_mode_once_no_headers device_id mode s e s1 :
  Nest._get_headers s = (Raise e, s1) ->
  Nest.set_thermostat_mode_once device_id mode s = (Raise e, s1).
Proof.
  intros Hh. unfold Nest.set_thermostat_mode_once, bind. by rewrite Hh.
Qed.

(** One listing call, once the headers are there. *)
Lemma fetch_devices_error_status s h s1 status body :
  Nest._get_headers s = (Ok h, s1) ->
  next_list_reply s1 = Response status body ->
  400 <= status <= 599 ->
  Nest.fetch_devices s = (Raise (HTTPStatusError status), listed s1).
Proof.
  intros Hh Hr Hs. unfold Nest.fetch_devices, bind. rewrite Hh.
  unfold next_list_reply, listed in *. simpl. rewrite Hr.
  rewrite raise_for_status_spec. simpl.
  by rewrite status_raises_error.
Qed.

Lemma set_thermostat_mode_once_true device_id mode s s' :
  Nest.set_thermostat_mode_once device_id mode s = (Ok true, s') ->
  exists n, length (commands (trace s')) = S n
            /\ device_command (world s') n = Response 200 tt.
Proof.
  destruct (Nest._get_headers s) as [[h|e] s1] eqn:Hh.
  - rewrite (set_thermostat_mode_once_spec _ _ _ _ _ Hh).
    unfold next_command_reply.
    destruct (device_command _ _) as [status []|e] eqn:Hr; [|done].
    destruct (status =? 200) eqn:E.
    + intros [= <-]. exists (length (commands (trace s1))).
      apply Z.eqb_eq in E as ->. split; [|done].
      unfold posted. simpl. rewrite length_app. simpl. lia.
    + by destruct (status_raises _ _).
  - by rewrite (set_thermostat_mode_once_no_headers _ _ _ _ _ Hh).
Qed.

End Retry.

Section ModeCommand.

Import Env Obj Run Props.

Lemma get_headers_keeps_posts : keeps posts Nest._get_headers.
Proof.
  unfold Nest._get_headers, Auth.get_auth_header, Auth.get_valid_token,
    Auth.needs_refresh, Auth.expired, Auth.refresh.
  keeps.
Qed.

Lemma world_through_trace t s : world (with_trace t s) = world s.
Proof. reflexivity. Qed.

Lemma world_through_token_manager tm s : world (with_token_manager tm s) = world s.
Proof. reflexivity. Qed.

Lemma world_through_nest_controller nc s :
  world (with_nest_controller nc s) = world s.
Proof. reflexivity. Qed.

Lemma get_headers_keeps_world : keeps world Nest._get_headers.
Proof.
  apply get_headers_keeps;
    [apply world_through_trace|apply world_through_token_manager].
Qed.

(** An attempt either stops before the POST, and raises, or posts one
    command and makes of its reply what [verdict] says. *)
Lemma set_thermostat_mode_once_cases device_id mode s :
  let r := Nest.set_thermostat_mode_once device_id mode s in
  world (snd r) = world s
  /\ ((posts (snd r) = posts s /\ exists e, fst r = Raise e)
      \/ (posts (snd r) = posts s ++ [(device_id, mode)]
          /\ fst r = verdict (world s)
                       (device_command (world s) (length (posts s))))).
Proof.
  pose proof (get_headers_keeps_posts s) as Hp.
  pose proof (get_headers_keeps_world s) as Hw.
  destruct (Nest._get_headers s) as [[h|e] s1] eqn:Hh; simpl in *.
  - rewrite (set_thermostat_mode_once_spec _ _ _ _ _ Hh).
    unfold next_command_reply, verdict. fold (posts s1). rewrite Hp, Hw.
    assert (Hposted : world (posted device_id mode s1) = world s
                      /\ posts (posted device_id mode s1)
                         = posts s ++ [(device_id, mode)]).
    { unfold posted, posts in *. simpl. by rewrite Hw, Hp. }
    destruct Hposted as [Hw' Hp'].
    destruct (device_command _ _) as [status []|e]; simpl.
    + destruct (status =? 200); simpl; [by eauto|].
      destruct (status_raises _ _); simpl; by eauto.
    + by eauto.
  - rewrite (set_thermostat_mode_once_no_headers _ _ _ _ _ Hh). simpl.
    split; [done|]. left. eauto.
Qed.

End ModeCommand.

Section ModeCommandRetried.

Import Env Obj Run Props.

Implicit Types (s : Sys) (n more : nat).

Lemma retry_posts_grow device_id mode more s :
  let r := Nest.retry_from more (Nest.set_thermostat_mode_once device_id mode) s in
  world (snd r) = world s
  /\ (length (posts s) <= length (posts (snd r)))%nat.
Proof.
  revert s. induction more as [|more IH]; intros s; cbv zeta;
    destruct (set_thermostat_mode_once_cases device_id mode s) as [Hw Hc];
    destruct (Nest.set_thermostat_mode_once device_id mode s)
      as [[a|e] s1] eqn:Hb; simpl in Hw, Hc.
  1,3: rewrite (retry_from_ok _ _ _ _ _ Hb); simpl; split; [done|];
       destruct Hc as [[-> _]|[-> _]]; rewrite ?length_app; simpl; lia.
  - rewrite (retry_from_raise _ _ _ _ _ Hb).
    destruct (Nest.retryable e); simpl; (split; [done|]);
      destruct Hc as [[-> _]|[-> _]]; rewrite ?length_app; simpl; lia.
  - rewrite (retry_from_raise _ _ _ _ _ Hb).
    destruct (Nest.retryable e); simpl.
    + destruct (IH s1) as [Hw' Hl]. split; [congruence|].
      destruct Hc as [[Hp _]|[Hp _]]; rewrite Hp in Hl;
        rewrite ?length_app in Hl; simpl in Hl; lia.
    + split; [done|].
      destruct Hc as [[-> _]|[-> _]]; rewrite ?length_app; simpl; lia.
Qed.

(** An attempt whose POST is the [n]-th of the process and is the last
    one of the state it leaves: what the attempt gives is the verdict on
    the [n]-th reply. *)
Lemma attempt_is_last device_id mode s n :
  let r := Nest.set_thermostat_mode_once device_id mode s in
  (length (posts s) <= n)%nat ->
  length (posts (snd r)) = S n ->
  fst r = verdict (world s) (device_command (world s) n).
Proof.
  destruct (set_thermostat_mode_once_cases device_id mode s) as [_ Hc].
  cbv zeta. intros Hle Hn.
  destruct Hc as [[Hp _]|[Hp Hv]]; rewrite Hp in Hn;
    rewrite ?length_app in Hn; simpl in Hn; [lia|].
  rewrite Hv. do 2 f_equal. lia.
Qed.

(** When the verdict on the reply to the last POST of the call is a
    value, the call returns it. *)
Lemma retry_returns_last_verdict device_id mode more s n b :
  let r := Nest.retry_from more (Nest.set_thermostat_mode_once device_id mode) s in
  (length (posts s) <= n)%nat ->
  length (posts (snd r)) = S n ->
  verdict (world s) (device_command (world s) n) = Ok b ->
  fst r = Ok b.
Proof.
  revert s. induction more as [|more IH]; intros s; cbv zeta;
    pose proof (attempt_is_last device_id mode s n) as Hlast;
    destruct (set_thermostat_mode_once_cases device_id mode s) as [Hw _];
    destruct (Nest.set_thermostat_mode_once device_id mode s)
      as [[a|e] s1] eqn:Hb; simpl in Hw, Hlast.
  1,3: rewrite (retry_from_ok _ _ _ _ _ Hb); simpl; intros Hle Hn Hv;
       rewrite <- Hv; by apply Hlast.
  - rewrite (retry_from_raise _ _ _ _ _ Hb). intros Hle Hn Hv.
    assert (length (posts s1) = S n) as Hn1
      by (by destruct (Nest.retryable e)).
    specialize (Hlast Hle Hn1). congruence.
  - rewrite (retry_from_raise _ _ _ _ _ Hb). intros Hle Hn Hv.
    destruct (Nest.retryable e); simpl in *.
    + destruct (retry_posts_grow device_id mode more s1) as [_ Hgrow].
      simpl in Hgrow. rewrite Hn in Hgrow.
      destruct (decide (length (posts s1) <= n)%nat) as [Hle1|Hgt].
      * apply IH; [done|done|by rewrite Hw].
      * assert (length (posts s1) = S n) as Hn1 by lia.
        specialize (Hlast Hle Hn1). congruence.
    + specialize (Hlast Hle Hn). congruence.
Qed.

(** When the call returns a value, it is the verdict on the reply to its
    last POST. *)
Lemma retry_value_is_last_verdict device_id mode more s b :
  let r := Nest.retry_from more (Nest.set_thermostat_mode_once device_id mode) s in
  fst r = Ok b ->
  exists n, (length (posts s) <= n)%nat
            /\ length (posts (snd r)) = S n
            /\ verdict (world s) (device_command (world s) n) = Ok b.
Proof.
  revert s. induction more as [|more IH]; intros s; cbv zeta;
    destruct (set_thermostat_mode_once_cases device_id mode s) as [Hw Hc];
    destruct (Nest.set_thermostat_mode_once device_id mode s)
      as [[a|e] s1] eqn:Hb; simpl in Hw, Hc.
  1,3: rewrite (retry_from_ok _ _ _ _ _ Hb); simpl; intros [= ->];
       destruct Hc as [[_ [e [=]]]|[Hp Hv]];
       exists (length (posts s)); rewrite Hp, length_app; simpl;
       split; [lia|split; [lia|done]].
  - rewrite (retry_from_raise _ _ _ _ _ Hb).
    by destruct (Nest.retryable e).
  - rewrite (retry_from_raise _ _ _ _ _ Hb).
    destruct (Nest.retryable e); simpl; [|done].
    intros Hr. destruct (IH s1 Hr) as (n & Hle & Hn & Hv).
    exists n. rewrite <- Hw. split; [|done].
    destruct Hc as [[Hp _]|[Hp _]]; rewrite Hp in Hle;
      rewrite ?length_app in Hle; simpl in Hle; lia.
Qed.

Lemma verdict_other_success w status :
  200 <= status <= 299 -> status <> 200 ->
  verdict w (Response status tt) = Ok false.
Proof.
  intros Hs Hne. unfold verdict, status_raises.
  destruct (status =? 200) eqn:E; [lia|].
  replace ((200 <=? status) && (status <=? 299)) with true by lia. done.
Qed.

Lemma verdict_true w r : verdict w r = Ok true -> r = Response 200 tt.
Proof.
  destruct r as [status []|e]; simpl; [|done].
  destruct (status =? 200) eqn:E.
  - intros _. f_equal. lia.
  - by destruct (status_raises w status).
Qed.

(** C9.  When the last response the mode command receives (the reply to
    the last POST of the call) has a 2xx status other than 200, for
    instance 204, [set_thermostat_mode] returns false and does not raise;
    and when it returns true, that last response has status 200. *)
Theorem success_only_on_200 device_id mode s :
  let r := Nest.set_thermostat_mode device_id mode s in
  (forall n status,
      (length (posts s) <= n)%nat ->
      length (posts (snd r)) = S n ->
      device_command (world s) n = Response status tt ->
      200 <= status <= 299 -> status <> 200 ->
      fst r = Ok false)
  /\ (fst r = Ok true ->
      exists n, (length (posts s) <= n)%nat
                /\ length (posts (snd r)) = S n
                /\ device_command (world s) n = Response 200 tt).
Proof.
  cbv zeta. unfold Nest.set_thermostat_mode, Nest.retry. split.
  - intros n status Hle Hn Hr Hs Hne.
    apply (retry_returns_last_verdict _ _ _ _ n); [done|done|].
    rewrite Hr. by apply verdict_other_success.
  - intros Hr.
    destruct (retry_value_is_last_verdict _ _ _ _ _ Hr) as (n & Hle & Hn & Hv).
    exists n. split; [done|]. split; [done|]. by apply verdict_true in Hv.
Qed.

(** A world whose device commands are answered with 204: the first
    attempt posts, the reply is the last of the call, the result is
    false. *)
Lemma success_only_on_200_witness :
  let s := Sample.boot (Sample.world_with 204 (Fails ConnectError)) "" in
  fst (Nest.set_thermostat_mode "dev-a" "OFF" s) = Ok false.
Proof.
  intros s.
  apply (proj1 (success_only_on_200 "dev-a" "OFF" s) 0%nat 204).
  - vm_compute. lia.
  - vm_compute. reflexivity.
  - reflexivity.
  - lia.
  - lia.
Defined.

End ModeCommandRetried.

Section RetryClasses.

Import Env Obj Run Props.

Lemma list_devices_once_fetches force s :
  serves_cache force s = false ->
  Nest.list_devices_once force s = Nest.fetch_devices s.
Proof.
  unfold serves_cache, Nest.list_devices_once, bind, get_sys.
  destruct (_devices_cache (nest_controller s)) as [[|d l]|]; try done.
  by intros ->.
Qed.

(** C4, as the code has it.  A failed attempt of a decorated call is
    followed by another attempt exactly when attempts remain and the
    failure is an [HTTPStatusError] or a [ConnectError]; after the last
    attempt such a failure becomes a [RetryError]; any other failure is
    raised at once.  An attempt of the mode command or of the listing that
    gets a response with an error status, 400 and 401 among them, fails
    with [HTTPStatusError]: the call goes on with its second and third
    attempts. *)
Theorem retry_policy_classes :
  (forall A (body : M A) more s e s1,
      body s = (Raise e, s1) ->
      (transient e ->
       Nest.retry_from more body s
       = match more with
         | O => (Raise (RetryError e), s1)
         | S m => Nest.retry_from m body s1
         end)
      /\ (~ transient e -> Nest.retry_from more body s = (Raise e, s1)))
  /\ (forall device_id mode s h s1 status,
        Nest._get_headers s = (Ok h, s1) ->
        next_command_reply s1 = Response status tt ->
        400 <= status <= 599 ->
        Nest.set_thermostat_mode device_id mode s
        = Nest.retry_from 1 (Nest.set_thermostat_mode_once device_id mode)
            (posted device_id mode s1))
  /\ (forall force s h s1 status body,
        serves_cache force s = false ->
        Nest._get_headers s = (Ok h, s1) ->
        next_list_reply s1 = Response status body ->
        400 <= status <= 599 ->
        Nest.list_devices force s
        = Nest.retry_from 1 (Nest.list_devices_once force) (listed s1)).
Proof.
  split; [|split].
  - intros A body more s e s1 Hb.
    rewrite (retry_from_raise _ _ _ _ _ Hb). split.
    + intros Ht. apply retryable_transient in Ht. by rewrite Ht.
    + intros Hnt. destruct (Nest.retryable e) eqn:E; [|done].
      by apply retryable_transient in E.
  - intros device_id mode s h s1 status Hh Hr Hs.
    assert (Nest.set_thermostat_mode_once device_id mode s
            = (Raise (HTTPStatusError status), posted device_id mode s1))
      as Hb.
    { rewrite (set_thermostat_mode_once_spec _ _ _ _ _ Hh), Hr.
      replace (status =? 200) with false by lia.
      by rewrite status_raises_error. }
    unfold Nest.set_thermostat_mode, Nest.retry.
    by rewrite (retry_from_raise _ _ _ _ _ Hb).
  - intros force s h s1 status body Hc Hh Hr Hs.
    assert (Nest.list_devices_once force s
            = (Raise (HTTPStatusError status), listed s1)) as Hb.
    { rewrite (list_devices_once_fetches _ _ Hc).
      by apply (fetch_devices_error_status _ h _ _ body). }
    unfold Nest.list_devices, Nest.retry.
    by rewrite (retry_from_raise _ _ _ _ _ Hb).
Qed.

(** A world whose device commands are answered with 401: after the first
    attempt the call goes on with two more. *)
Lemma retry_policy_classes_witness :
  let s := Sample.boot (Sample.world_with 401 (Fails ConnectError)) "" in
  let s1 := snd (Nest._get_headers s) in
  Nest.set_thermostat_mode "dev-a" "OFF" s
  = Nest.retry_from 1 (Nest.set_thermostat_mode_once "dev-a" "OFF")
      (posted "dev-a" "OFF" s1).
Proof.
  intros s s1.
  apply (proj1 (proj2 retry_policy_classes) "dev-a" "OFF" s "Bearer tok" s1 401).
  - vm_compute. reflexivity.
  - reflexivity.
  - lia.
Defined.

(** C4, as the spec has it, fails: every command is answered with 401,
    an auth rejection, and the mode command posts three times before it
    gives up with a [RetryError]. *)
Lemma auth_rejection_is_retried :
  let s := Sample.boot (Sample.world_with 401 (Fails ConnectError)) "" in
  let r := Nest.set_thermostat_mode "dev-a" "OFF" s in
  device_command (world s) 0 = Response 401 tt
  /\ posts (snd r) = [("dev-a", "OFF"); ("dev-a", "OFF"); ("dev-a", "OFF")]
  /\ fst r = Raise (RetryError (HTTPStatusError 401)).
Proof. vm_compute. split; [reflexivity|]. split; reflexivity. Qed.

End RetryClasses.

(** * Properties of the token manager *)

Section Token.

Import Env Obj Run Props.

Lemma must_refresh_iff s :
  must_refresh s = true <-> no_token s \/ token_expired s \/ within_margin s.
Proof.
  unfold must_refresh, no_token, token_expired, within_margin.
  destruct (token (held s)) as [tok|], (expiry (held s)) as [x|];
    try (split; [by left|done]).
  - rewrite orb_true_iff, Z.leb_le, Z.ltb_lt. split.
    + intros [H|H]; [right; left|right; right]; eauto.
    + intros [[=]|[(x' & [= <-] & H)|(x' & [= <-] & H)]]; [by left|by right].
  - split; [done|]. by intros [[=]|[(x' & [=] & _)|(x' & [=] & _)]].
Qed.

(** What [get_valid_token] gives and how many exchanges it makes. *)
Lemma get_valid_token_spec s :
  let r := Auth.get_valid_token s in
  refresh_calls (trace (snd r))
  = (if must_refresh s then S (refresh_calls (trace s))
     else refresh_calls (trace s))
  /\ fst r
     = (if must_refresh s
        then match next_refresh_reply s with
             | Some (tok, _) => Ok (Some tok)
             | None => Raise RefreshError
             end
        else Ok (token (held s))).
Proof.
  unfold must_refresh, next_refresh_reply, held.
  unfold Auth.get_valid_token, Auth.needs_refresh, Auth.expired,
    Auth.refresh, Auth.set_credentials, Auth.set_last_refresh,
    Auth.SAFETY_MARGIN, timedelta_minutes, try_except, bind, get_sys,
    modify, ret, raise, read_clock, call_token_endpoint.
  cbv zeta.
  destruct (_credentials (token_manager s)) as [[[tok|] [x|]]|] eqn:Hc;
    simpl; rewrite ?Hc; simpl;
    repeat match goal with
           | |- context [if ?b then _ else _] => destruct b eqn:?; simpl
           | |- context [match token_endpoint ?w ?n with _ => _ end] =>
               destruct (token_endpoint w n) as [[? ?]|] eqn:?; simpl
           end;
    rewrite ?Hc; try done.
Qed.

(** C6.  [get_valid_token] makes a refresh exchange exactly when no token
    is held, or the held token is expired, or its expiry is less than ten
    minutes after the reading of the clock; it makes one exchange then and
    none otherwise.  A token whose expiry is five minutes after the
    reading leads to exactly one exchange.  When the exchange fails the
    exception reaches the caller, with no second exchange; when it
    succeeds the new token is returned. *)
Theorem get_valid_token_refresh_condition s :
  let r := Auth.get_valid_token s in
  let before := refresh_calls (trace s) in
  (no_token s \/ token_expired s \/ within_margin s ->
   refresh_calls (trace (snd r)) = S before
   /\ (next_refresh_reply s = None -> fst r = Raise RefreshError)
   /\ (forall tok exp,
         next_refresh_reply s = Some (tok, exp) -> fst r = Ok (Some tok)))
  /\ (~ (no_token s \/ token_expired s \/ within_margin s) ->
      refresh_calls (trace (snd r)) = before
      /\ fst r = Ok (token (held s)))
  /\ (expiry (held s)
        = Some (clock (world s) (S (clock_reads (trace s))) + 5 * MINUTE) ->
      refresh_calls (trace (snd r)) = S before).
Proof.
  cbv zeta. destruct (get_valid_token_spec s) as [Hn Hr].
  split; [|split].
  - intros H. apply must_refresh_iff in H. rewrite H in Hn, Hr.
    split; [done|]. split.
    + intros Hnone. by rewrite Hnone in Hr.
    + intros tok exp Hsome. by rewrite Hsome in Hr.
  - intros H.
    destruct (must_refresh s) eqn:E; [by apply must_refresh_iff in E|done].
  - intros Hx.
    assert (must_refresh s = true) as E.
    { apply must_refresh_iff. right. right. eexists. split; [done|].
      unfold MINUTE, SECOND. lia. }
    by rewrite E in Hn.
Qed.

(** The process holds a token that expires five minutes after noon, and
    the clock stands at noon: one exchange, and the new token. *)
Lemma get_valid_token_refresh_condition_witness :
  let s := Sample.holding (Sample.world_with 200 (Fails ConnectError))
             (Some (Sample.noon + 5 * MINUTE)) in
  refresh_calls (trace (snd (Auth.get_valid_token s))) = 1%nat.
Proof.
  intros s.
  apply (proj2 (proj2 (get_valid_token_refresh_condition s))).
  reflexivity.
Defined.

End Token.

(** * Properties of the feed path *)

Section Feed.

Import Poller Env Obj Run Props.

Lemma fetch_calendar_spec s :
  Main.fetch_calendar s
  = (Ok (match next_feed_reply s with
         | Response status (Some calendar) =>
             if status_raises (world s) status then None else Some calendar
         | _ => None
         end),
     snd (call_feed s)).
Proof.
  unfold Main.fetch_calendar, try_except, bind, next_feed_reply. simpl.
  destruct (feed _ _) as [status body|e]; simpl.
  - rewrite raise_for_status_spec. simpl.
    destruct (status_raises _ _), body; simpl; try done;
      by destruct (is_HTTPError _).
  - by destruct (is_HTTPError e).
Qed.

Lemma fetch_calendar_failure s :
  feed_failure (world s) (next_feed_reply s) = true ->
  Main.fetch_calendar s = (Ok None, snd (call_feed s)).
Proof.
  intros Hf. rewrite fetch_calendar_spec. unfold feed_failure in Hf.
  destruct (next_feed_reply s) as [status [c|]|e]; try done.
  rewrite orb_false_r in Hf. by rewrite Hf.
Qed.

Lemma get_actionable_checkouts_failure buffer_minutes s :
  feed_failure (world s) (next_feed_reply s) = true ->
  Main.get_actionable_checkouts buffer_minutes s = (Ok [], fetched s).
Proof.
  intros Hf. unfold Main.get_actionable_checkouts, bind.
  destruct (Main.cleanup_old_processed _ s) as [[[]|e] s1] eqn:Hc;
    [|by discriminate Hc].
  rewrite fetch_calendar_failure.
  - unfold fetched. by rewrite Hc.
  - by injection Hc as <-.
Qed.

(** C7.  [fetch_calendar] never raises.  When the fetch fails (the
    request raises, the status is an error, or the body does not parse) it
    returns [None]; [get_actionable_checkouts] then returns the empty
    list; and the tick ends normally with no device command posted, no
    listing, no token exchange, no notification, nothing marked in the
    ledger and no action recorded. *)
Theorem feed_failure_is_null :
  returns Main.fetch_calendar
  /\ forall s,
       feed_failure (world s) (next_feed_reply s) = true ->
       fst (Main.fetch_calendar s) = Ok None
       /\ (forall buffer_minutes,
             fst (Main.get_actionable_checkouts buffer_minutes s) = Ok [])
       /\ let r := Main.poll_calendar_job s in
          fst r = Ok tt
          /\ posts (snd r) = posts s
          /\ list_calls (trace (snd r)) = list_calls (trace s)
          /\ refresh_calls (trace (snd r)) = refresh_calls (trace s)
          /\ notifications (trace (snd r)) = notifications (trace s)
          /\ _processed_events (calendar_poller (snd r))
               ⊆ _processed_events (calendar_poller s)
          /\ last_action_result (globals (snd r))
             = last_action_result (globals s).
Proof.
  split.
  - intros s. rewrite fetch_calendar_spec. eauto.
  - intros s Hf. split; [by rewrite fetch_calendar_failure|].
    split; [intros b; by rewrite get_actionable_checkouts_failure|].
    cbv zeta. unfold Main.poll_calendar_job, bind, try_except. simpl.
    rewrite get_actionable_checkouts_failure by done. simpl.
    repeat split; try done.
    intros k Hk. by apply elem_of_cleanup in Hk as [Hk _].
Qed.

(** The feed answers 503 at noon: the tick returns and posts nothing. *)
Lemma feed_failure_is_null_witness :
  let s := Sample.boot
             (Sample.world_with 200
                (Response 503 (Some {| walk := [Sample.checkout_entry] |})))
             "" in
  fst (Main.poll_calendar_job s) = Ok tt
  /\ posts (snd (Main.poll_calendar_job s)) = [].
Proof.
  intros s.
  destruct (proj2 feed_failure_is_null s) as (_ & _ & Hr & Hp & _).
  - vm_compute. reflexivity.
  - split; [exact Hr|exact Hp].
Defined.

End Feed.

(** * Properties of the orchestrator *)

Section Orchestrator.

Import Poller Env Obj Run Props.

Lemma list_devices_keeps_settings force s :
  settings (snd (Nest.list_devices force s)) = settings s.
Proof. by apply list_devices_keeps. Qed.

Lemma list_devices_keeps_poller force s :
  calendar_poller (snd (Nest.list_devices force s)) = calendar_poller s.
Proof. by apply list_devices_keeps. Qed.

(** C8.  Once the listing has returned: when the target devices (the
    configured ids, or else the thermostats of the listing) are not
    empty, [process_checkout_event] returns the record of the action, and
    the reservation id of the event is marked in the ledger, whatever the
    outcomes of the devices, all false included; when there is no target
    device, it returns the "no thermostats found" failure right after the
    listing, and the ledger is as it was. *)
Theorem process_checkout_event_marks event s devices s1 :
  Nest.list_devices false s = (Ok devices, s1) ->
  let device_ids := resolved_device_ids (settings s) devices in
  let r := Main.process_checkout_event event s in
  (device_ids <> [] ->
   (exists off failed,
       fst r = Ok (Action (reservation_id event) (property_name event)
                     off failed
                     (PyDict.fill [] (outcomes device_ids s1))))
   /\ reservation_id event ∈ _processed_events (calendar_poller (snd r)))
  /\ (device_ids = [] ->
      r = (Ok NoThermostatsFound, s1)
      /\ calendar_poller (snd r) = calendar_poller s).
Proof.
  intros Hl. cbv zeta.
  pose proof (list_devices_keeps_settings false s) as Hs.
  pose proof (list_devices_keeps_poller false s) as Hp.
  rewrite Hl in Hs, Hp. simpl in Hs, Hp.
  destruct (Main.process_checkout_event event s) as [res s'] eqn:Hr.
  revert Hr.
  unfold Main.process_checkout_event, bind at 1. rewrite Hl.
  unfold bind at 1, get_sys. rewrite Hs.
  unfold resolved_device_ids.
  set (ids := match Main.device_ids_list (settings s) with
              | [] => map device_id devices
              | _ :: _ => Main.device_ids_list (settings s)
              end).
  assert (match Main.device_ids_list (settings s) with
          | [] => map device_id devices
          | d :: l => d :: l
          end = ids) as ->
    by (subst ids; by destruct (Main.device_ids_list (settings s))).
  destruct ids as [|d rest] eqn:Hids.
  { intros [= <- <-]. split; [done|]. intros _. split; [done|exact Hp]. }
  unfold bind at 1, Nest.turn_off_thermostats.
  rewrite turn_off_loop_outcomes.
  unfold bind, Main.mark_processed, Main.set_last_action, modify, read_clock.
  simpl.
  destruct (Main.is_configured (settings s)); simpl.
  - unfold try_except, Main.send_thermostat_notification, bind, call_sink.
    simpl. destruct (sink _ _) as [[]|]; simpl; intros [= <- <-];
      (split; [|done]); intros _; (split; [eauto|simpl; set_solver]).
  - intros [= <- <-].
    split; [|done]. intros _. split; [eauto|simpl; set_solver].
Qed.

(** Every command is answered with 400, so both thermostats of the
    listing fail: the event is marked all the same. *)
Lemma process_checkout_event_marks_witness :
  let s := Sample.boot (Sample.world_with 400 (Fails ConnectError)) "" in
  let r := Main.process_checkout_event (Sample.event "R1" true) s in
  "R1" ∈ _processed_events (calendar_poller (snd r))
  /\ exists off failed,
       fst r = Ok (Action "R1" "Beach House" off failed
                     [("dev-a", false); ("dev-b", false)]).
Proof.
  intros s r.
  destruct (process_checkout_event_marks (Sample.event "R1" true) s
              (fst (Sample.listing s)) (snd (Sample.listing s)))
    as [H _].
  - vm_compute. reflexivity.
  - destruct H as [[off [failed Hr]] Hm].
    + vm_compute. discriminate.
    + split; [exact Hm|]. exists off, failed.
      etrans; [exact Hr|]. vm_compute. reflexivity.
Defined.

End Orchestrator.

(** * Further properties of the ledger *)

Section LedgerMore.

Import Poller Props.

Implicit Types (p : CalendarPoller) (e : CheckoutEvent).

Lemma discard_all_dom p (l : list string) :
  dom (_processed_timestamps (foldl (fun p res_id => discard res_id p) p l))
  = dom (_processed_timestamps p) ∖ list_to_set l.
Proof.
  revert p. induction l as [|k l IH]; intros p; simpl.
  - set_solver.
  - rewrite IH. simpl. rewrite dom_delete_L. set_solver.
Qed.

Lemma step_consistent p op : ledger_consistent p -> ledger_consistent (step p op).
Proof.
  unfold ledger_consistent. intros H. destruct op as [now e|now h]; simpl.
  - rewrite dom_insert_L. by rewrite H.
  - unfold cleanup_old_processed.
    by rewrite discard_all_dom, discard_all_events, H.
Qed.

(** X1.  The ledger of a poller that starts empty stays consistent: whatever
    marks and cleanups are applied, the ids of the timestamps are the ids of
    the processed set. *)
Theorem ledger_stays_consistent url keyword ops :
  ledger_consistent (run_ops (init url keyword) ops).
Proof.
  unfold run_ops.
  assert (ledger_consistent (init url keyword)) as H0.
  { unfold ledger_consistent. simpl. by rewrite dom_empty_L. }
  revert H0. generalize (init url keyword).
  induction ops as [|op ops IH]; intros p Hp; simpl; [done|].
  apply IH. by apply step_consistent.
Qed.

(** X2.  Marking an id again is marking it once at the later time: the set is
    the same and the timestamp is the new one. *)
Theorem mark_processed_again p T1 T2 e1 e2 :
  reservation_id e1 = reservation_id e2 ->
  mark_processed T2 e2 (mark_processed T1 e1 p) = mark_processed T2 e2 p.
Proof.
  intros Heq. unfold mark_processed. simpl. rewrite Heq. f_equal.
  - set_solver.
  - apply insert_insert_eq.
Qed.

Lemma mark_processed_again_witness :
  mark_processed (Sample.noon + HOUR) (Sample.event "R1" false)
    (mark_processed Sample.noon (Sample.event "R1" true) Sample.poller)
  = mark_processed (Sample.noon + HOUR) (Sample.event "R1" false) Sample.poller.
Proof.
  apply (mark_processed_again Sample.poller Sample.noon (Sample.noon + HOUR)
           (Sample.event "R1" true) (Sample.event "R1" false)).
  reflexivity.
Defined.

Lemma cleanup_lookup now max_age_hours p res_id :
  _processed_timestamps (cleanup_old_processed now max_age_hours p) !! res_id
  = match _processed_timestamps p !! res_id with
    | Some t => if t <? now - max_age_hours * HOUR then None else Some t
    | None => None
    end.
Proof.
  unfold cleanup_old_processed. rewrite discard_all_timestamps.
  destruct (_processed_timestamps p !! res_id) as [t|] eqn:Ht.
  - destruct (t <? now - max_age_hours * HOUR) eqn:E.
    + rewrite bool_decide_eq_true_2; [done|].
      apply elem_of_to_remove. exists t. unfold timedelta_hours. split; [done|lia].
    + rewrite bool_decide_eq_false_2; [done|].
      intros Hin. apply elem_of_to_remove in Hin as (t' & Ht' & Hlt).
      unfold timedelta_hours in Hlt. rewrite Ht in Ht'. injection Ht' as <-. lia.
  - by destruct (bool_decide _).
Qed.

(** X3.  What a cleanup leaves: no timestamp older than the cutoff is left,
    and an entry that is not older than the cutoff is still there, with its
    timestamp, and so is its id in the processed set. *)
Theorem cleanup_leaves_the_fresh now max_age_hours p :
  (forall res_id t,
      _processed_timestamps (cleanup_old_processed now max_age_hours p)
        !! res_id = Some t ->
      now - max_age_hours * HOUR <= t)
  /\ (forall res_id t,
        _processed_timestamps p !! res_id = Some t ->
        now - max_age_hours * HOUR <= t ->
        _processed_timestamps (cleanup_old_processed now max_age_hours p)
          !! res_id = Some t
        /\ (res_id ∈ _processed_events p ->
            res_id ∈ _processed_events
                       (cleanup_old_processed now max_age_hours p))).
Proof.
  split.
  - intros k t. rewrite cleanup_lookup.
    destruct (_processed_timestamps p !! k) as [t'|]; [|done].
    destruct (t' <? now - max_age_hours * HOUR) eqn:E; [done|].
    intros [= <-]. lia.
  - intros k t Ht Hle. split.
    + rewrite cleanup_lookup, Ht.
      by replace (t <? now - max_age_hours * HOUR) with false by lia.
    + intros Hin. apply elem_of_cleanup. split; [done|].
      intros Hr. apply elem_of_to_remove in Hr as (t' & Ht' & Hlt).
      unfold timedelta_hours in Hlt. rewrite Ht in Ht'. injection Ht' as <-. lia.
Qed.

Lemma cleanup_leaves_the_fresh_witness :
  let p := mark_processed Sample.noon (Sample.event "R1" true) Sample.poller in
  _processed_timestamps (cleanup_old_processed (Sample.noon + HOUR) 24 p) !! "R1"
  = Some Sample.noon.
Proof.
  intros p.
  apply (proj2 (cleanup_leaves_the_fresh (Sample.noon + HOUR) 24 p)
           "R1" Sample.noon).
  - reflexivity.
  - vm_compute. discriminate.
Defined.

(** X4.  A second cleanup at the same instant changes nothing. *)
Theorem cleanup_twice now max_age_hours p :
  cleanup_old_processed now max_age_hours
    (cleanup_old_processed now max_age_hours p)
  = cleanup_old_processed now max_age_hours p.
Proof.
  set (q := cleanup_old_processed now max_age_hours p).
  assert (to_remove now max_age_hours q = []) as Hnil.
  { destruct (to_remove now max_age_hours q) as [|k l] eqn:E; [done|].
    assert (k ∈ to_remove now max_age_hours q) as Hin by (rewrite E; set_solver).
    apply elem_of_to_remove in Hin as (t & Ht & Hlt). subst q.
    rewrite cleanup_lookup in Ht.
    destruct (_processed_timestamps p !! k) as [t'|]; [|done].
    unfold timedelta_hours in Hlt.
    destruct (t' <? now - max_age_hours * HOUR) eqn:E'; [done|].
    injection Ht as <-. lia. }
  unfold cleanup_old_processed at 1. by rewrite Hnil.
Qed.

End LedgerMore.

(** * Further properties of the policy *)

Section PolicyMore.

Import Poller Props.

Implicit Types (p : CalendarPoller) (c : Component) (e : CheckoutEvent).

Lemma elem_of_parse_events p now calendar buffer_minutes e :
  e ∈ parse_events p now calendar buffer_minutes <->
  exists c, c ∈ walk calendar /\ parse_component p now buffer_minutes c = Selected e.
Proof.
  rewrite parse_events_omap, list_elem_of_omap. unfold selection. split.
  - intros (c & Hc & Hs). exists c. split; [done|].
    by destruct (parse_component _ _ _ c) as [| |e']; simplify_eq.
  - intros (c & Hc & Hs). exists c. by rewrite Hs.
Qed.

Lemma aware_has_offset v d :
  _ensure_timezone_aware v = Some d -> is_Some (tzoffset d).
Proof.
  destruct v as [days|d0]; simpl; [done|].
  destruct (tzoffset d0) eqn:E; intros [= <-]; simpl; rewrite ?E; eauto.
Qed.

Lemma selected_event p now buffer_minutes c e :
  parse_component p now buffer_minutes c = Selected e ->
  instant (event_start e) <= now
  /\ (now - buffer_minutes * MINUTE <= instant (event_start e)
      \/ now <= instant (event_end e))
  /\ (is_checkout (summary e) = true \/ has_trigger_keyword e = true)
  /\ has_trigger_keyword e = has_trigger (trigger_keyword p) (description e)
  /\ is_Some (tzoffset (event_start e)).
Proof.
  unfold parse_component.
  destruct (negb (bool_decide (name c = "VEVENT"))); [done|].
  destruct (get_dtstart c) as [v|]; [|done].
  destruct (_ensure_timezone_aware v) as [start|] eqn:Hs; [|done].
  destruct (end_of start (get_dtend c)) as [end_|]; [|done].
  destruct (is_in_window _ _ _ || is_happening_now _ _ _) eqn:Hw;
    simpl; [|done].
  destruct (is_checkout _ || has_trigger _ _) eqn:Hc; simpl; [|done].
  intros [= <-]. simpl.
  apply orb_true_iff in Hw, Hc.
  unfold is_in_window, is_happening_now, timedelta_minutes in Hw.
  repeat split.
  - destruct Hw as [Hw|Hw]; apply andb_true_iff in Hw; lia.
  - destruct Hw as [Hw|Hw]; apply andb_true_iff in Hw; lia.
  - done.
  - by apply aware_has_offset in Hs.
Qed.

(** X5.  What [parse_events] returns: every event has started, no later
    than the reading of the clock (no future entry is acted on), and either
    no earlier than [buffer_minutes] before it or not yet ended; its summary
    has a checkout indicator or its trigger flag is set; the flag says
    whether the description has the trigger keyword; and its start is
    timezone-aware. *)
Theorem parse_events_sound p now calendar buffer_minutes e :
  e ∈ parse_events p now calendar buffer_minutes ->
  instant (event_start e) <= now
  /\ (now - buffer_minutes * MINUTE <= instant (event_start e)
      \/ now <= instant (event_end e))
  /\ (is_checkout (summary e) = true \/ has_trigger_keyword e = true)
  /\ has_trigger_keyword e = has_trigger (trigger_keyword p) (description e)
  /\ is_Some (tzoffset (event_start e)).
Proof.
  intros (c & _ & Hc)%elem_of_parse_events. by apply selected_event in Hc.
Qed.

(** The batch of the samples at noon: the one event returned started
    before noon. *)
Lemma parse_events_sound_witness :
  let e := {| reservation_id := "ABC123";
              event_start := utc (Sample.noon - 5 * MINUTE);
              event_end := utc (Sample.noon + HOUR);
              property_name := "Unknown Property";
              guest_name := "Unknown Guest";
              summary := "Guest Check-out";
              description :=
                "Reservation: ABC123" +:+ NEWLINE +:+ "TURN_OFF_THERMOSTATS";
              has_trigger_keyword := true |} in
  instant (event_start e) <= Sample.noon.
Proof.
  intros e.
  apply (parse_events_sound Sample.poller Sample.noon
           {| walk := [Sample.dinner_entry; Sample.checkout_entry] |} 30 e).
  vm_compute. apply list_elem_of_here.
Defined.

Lemma passed_over_not_selected p now buffer_minutes c :
  passed_over c -> selection p now buffer_minutes c = None.
Proof.
  unfold selection, parse_component.
  intros [Hn|[Hs|[[d Hs]|[d He]]]].
  - by rewrite bool_decide_eq_false_2.
  - destruct (negb _); [done|]. by rewrite Hs.
  - destruct (negb _); [done|]. by rewrite Hs.
  - destruct (negb _); [done|].
    destruct (get_dtstart c) as [v|]; [|done].
    destruct (_ensure_timezone_aware v); [|done].
    by rewrite He.
Qed.

(** X6.  The components [parse_events] passes over: one that is not a
    VEVENT, one without DTSTART, and one whose DTSTART or DTEND is a date
    (an all-day entry: reading its [tzinfo] raises, and the exception is
    caught) yields no event, whatever the clock, the buffer, its summary and
    its description; the events returned are those of the calendar without
    it. *)
Theorem parse_events_passes_over p now buffer_minutes c before after :
  passed_over c ->
  parse_events p now {| walk := before ++ c :: after |} buffer_minutes
  = parse_events p now {| walk := before ++ after |} buffer_minutes.
Proof.
  intros Hc. rewrite !parse_events_omap. simpl.
  rewrite !omap_app. simpl.
  by rewrite (passed_over_not_selected _ _ _ _ Hc).
Qed.

(** An all-day checkout with the trigger keyword, today: no event. *)
Lemma parse_events_passes_over_witness :
  let all_day :=
    {| Poller.name := "VEVENT";
       get_summary := Some "Guest Check-out";
       get_description := Some "TURN_OFF_THERMOSTATS";
       get_dtstart := Some (DDate 19723);
       get_dtend := Some (DDate 19724) |} in
  parse_events Sample.poller Sample.noon {| walk := [] ++ all_day :: [] |} 30
  = [].
Proof.
  intros all_day.
  rewrite (parse_events_passes_over Sample.poller Sample.noon 30 all_day [] []).
  - reflexivity.
  - right. right. left. by exists 19723.
Defined.

End PolicyMore.

(** * Properties of the parsing of descriptions *)

Section Descriptions.

Import Text Poller Props.

Implicit Types (s g : string) (k tail : string -> option string).








Lemma span_class_app cls r rest :
  all_chars cls r = true -> stops cls rest = true ->
  span_class cls (r +:+ rest) = r.
Proof.
  intros Hr Hs. induction r as [|c r IH]; simpl in *.
  - destruct rest as [|c rest]; simpl in *; [done|].
    by apply negb_true_iff in Hs as ->.
  - apply andb_true_iff in Hr as [-> Hr]. by rewrite IH.
Qed.




Lemma re_search_absent head tail s :
  contains head s = false -> re_search same_char head tail s = None.
Proof.
  induction s as [|c s IH]; simpl; unfold starts_with.
  - by destruct (strip_prefix_by same_char head "").
  - destruct (strip_prefix_by same_char head (String c s)); simpl; [done|].
    apply IH.
Qed.

(** X9.  Missing labels: a description without ["Property:"] gives the
    property name ["Unknown Property"], and one without ["Guest name:"] the
    guest name ["Unknown Guest"]; the empty description gives both. *)
Theorem parse_names_default description :
  (contains "Property:" description = false ->
   _parse_property_name description = "Unknown Property")
  /\ (contains "Guest name:" description = false ->
      _parse_guest_name description = "Unknown Guest").
Proof.
  unfold _parse_property_name, _parse_guest_name.
  split; intros H; by rewrite re_search_absent.
Qed.

Lemma parse_names_default_witness :
  _parse_property_name "Reservation: ABC123" = "Unknown Property"
  /\ _parse_guest_name "" = "Unknown Guest".
Proof.
  split.
  - apply (proj1 (parse_names_default "Reservation: ABC123")). reflexivity.
  - apply (proj2 (parse_names_default "")). reflexivity.
Defined.

Lemma strip_prefix_same head s :
  strip_prefix_by same_char head (head +:+ s) = Some s.
Proof.
  induction head as [|c head IH]; simpl; [done|].
  unfold same_char at 1. by rewrite bool_decide_eq_true_2.
Qed.

Lemma re_search_at_start head tail s g :
  tail s = Some g -> re_search same_char head tail (head +:+ s) = Some g.
Proof.
  intros Ht. pose proof (strip_prefix_same head s) as Hp.
  destruct (head +:+ s); simpl; by rewrite Hp, Ht.
Qed.

Lemma spaces_then_line value rest :
  value <> "" -> stops is_space value = true ->
  all_chars (fun c => negb (is_newline c)) value = true ->
  spaces_then lazy_line_group (String " " (value +:+ NEWLINE +:+ rest))
  = Some value.
Proof.
  intros Hne Hs Hv. destruct value as [|c value]; [done|].
  simpl in Hs. apply negb_true_iff in Hs.
  assert (lazy_line_group (String c value +:+ NEWLINE +:+ rest)
          = Some (String c value)) as Hg.
  { unfold lazy_line_group. by rewrite span_class_app. }
  simpl spaces_then. change (is_space " ") with true. cbv iota.
  change (String c value +:+ NEWLINE +:+ rest)
    with (String c (value +:+ NEWLINE +:+ rest)) in Hg.
  simpl spaces_then. rewrite Hs. by rewrite Hg.
Qed.

(** X10.  Round trip of the name labels: a description that starts with
    ["Property: "] (or ["Guest name: "]), then a value that is not empty,
    does not start with white space and has no newline, then a newline,
    gives the value without the white space at its end. *)
Theorem parse_names_label value rest :
  value <> "" -> stops is_space value = true ->
  all_chars (fun c => negb (is_newline c)) value = true ->
  _parse_property_name ("Property: " +:+ value +:+ NEWLINE +:+ rest)
  = strip value
  /\ _parse_guest_name ("Guest name: " +:+ value +:+ NEWLINE +:+ rest)
     = strip value.
Proof.
  intros Hne Hs Hv. unfold _parse_property_name, _parse_guest_name.
  pose proof (spaces_then_line value rest Hne Hs Hv) as Hl.
  split.
  - change ("Property: " +:+ value +:+ NEWLINE +:+ rest)
      with ("Property:" +:+ String " " (value +:+ NEWLINE +:+ rest)).
    by rewrite (re_search_at_start _ _ _ _ Hl).
  - change ("Guest name: " +:+ value +:+ NEWLINE +:+ rest)
      with ("Guest name:" +:+ String " " (value +:+ NEWLINE +:+ rest)).
    by rewrite (re_search_at_start _ _ _ _ Hl).
Qed.

Lemma parse_names_label_witness :
  _parse_property_name
    ("Property: " +:+ "Beach House  " +:+ NEWLINE +:+ "Guest name: Ada")
  = "Beach House".
Proof.
  apply (proj1 (parse_names_label "Beach House  " "Guest name: Ada"
                  ltac:(discriminate) eq_refl eq_refl)).
Defined.

End Descriptions.

(** * Further properties of the device client *)

Section DeviceCache.

Import Env Obj Run Props.

Lemma fetch_devices_ok s l s' :
  Nest.fetch_devices s = (Ok l, s') ->
  _devices_cache (nest_controller s') = Some l
  /\ exists devices, l = omap Nest.to_thermostat devices.
Proof.
  unfold Nest.fetch_devices, bind.
  destruct (Nest._get_headers s) as [[h|e] s1]; [|done]. simpl.
  destruct (device_list _ _) as [status body|e]; [|done].
  rewrite raise_for_status_spec. simpl.
  destruct (status_raises _ _); [done|].
  destruct body as [devices|]; [|done]. simpl.
  intros [= <- <-]. simpl. eauto.
Qed.

Lemma list_devices_once_ok force s l s' :
  Nest.list_devices_once force s = (Ok l, s') ->
  _devices_cache (nest_controller s') = Some l.
Proof.
  unfold Nest.list_devices_once, bind, get_sys.
  destruct (_devices_cache (nest_controller s)) as [[|d cache]|] eqn:Hc;
    try (by intros [H _]%fetch_devices_ok).
  destruct (negb force); [|by intros [H _]%fetch_devices_ok].
  by intros [= <- <-].
Qed.

Lemma list_devices_hit d cache s :
  _devices_cache (nest_controller s) = Some (d :: cache) ->
  Nest.list_devices false s = (Ok (d :: cache), s).
Proof.
  intros Hc. unfold Nest.list_devices, Nest.retry.
  apply retry_from_ok. unfold Nest.list_devices_once, bind, get_sys.
  by rewrite Hc.
Qed.

(** X11.  The inventory cache.  When [list_devices] returns a list, the
    cache holds that list; and if the list is not empty, a following call
    without [force_refresh] returns it again and changes nothing: no token
    is asked for and no request is sent. *)
Theorem list_devices_caches force s l s' :
  Nest.list_devices force s = (Ok l, s') ->
  _devices_cache (nest_controller s') = Some l
  /\ (l <> [] -> Nest.list_devices false s' = (Ok l, s')).
Proof.
  unfold Nest.list_devices at 1, Nest.retry.
  intros [s0 H]%retry_from_result. apply list_devices_once_ok in H.
  split; [done|]. intros Hne. destruct l as [|d l]; [done|].
  by apply list_devices_hit.
Qed.

Lemma list_devices_caches_witness :
  let s := Sample.boot (Sample.world_with 200 (Fails ConnectError)) "" in
  let l := fst (Sample.listing s) in
  let s' := snd (Sample.listing s) in
  Nest.list_devices false s' = (Ok l, s').
Proof.
  intros s l s'.
  apply (proj2 (list_devices_caches false s l s' ltac:(vm_compute; reflexivity))).
  vm_compute. discriminate.
Defined.

End DeviceCache.

Section DeviceIds.

Import Text Env Obj Run Props.

Lemma all_chars_app cls a b :
  all_chars cls (a +:+ b) = all_chars cls a && all_chars cls b.
Proof.
  induction a as [|c a IH]; simpl; [done|]. by rewrite IH, andb_assoc.
Qed.





End DeviceIds.

Section Attempts.

Import Env Obj Run Props.

Implicit Types (s : Sys) (n more : nat).

Lemma retry_posts device_id mode more s :
  exists n, (n <= S more)%nat
    /\ posts (snd (Nest.retry_from more
                     (Nest.set_thermostat_mode_once device_id mode) s))
       = posts s ++ replicate n (device_id, mode).
Proof.
  revert s. induction more as [|more IH]; intros s;
    destruct (set_thermostat_mode_once_cases device_id mode s) as [_ Hc];
    destruct (Nest.set_thermostat_mode_once device_id mode s)
      as [[a|e] s1] eqn:Hb; simpl in Hc.
  1,3: rewrite (retry_from_ok _ _ _ _ _ Hb); simpl;
       destruct Hc as [[-> _]|[-> _]];
       [exists 0%nat; simpl; rewrite app_nil_r; split; [lia|done]
       |exists 1%nat; split; [lia|done]].
  - rewrite (retry_from_raise _ _ _ _ _ Hb).
    assert (posts (if Nest.retryable e
                   then (Raise (RetryError e), s1)
                   else (@Raise bool e, s1)).2 = posts s1) as ->
      by (by destruct (Nest.retryable e)).
    destruct Hc as [[-> _]|[-> _]];
      [exists 0%nat; simpl; rewrite app_nil_r; split; [lia|done]
      |exists 1%nat; split; [lia|done]].
  - rewrite (retry_from_raise _ _ _ _ _ Hb).
    destruct (Nest.retryable e); simpl.
    + destruct (IH s1) as (n & Hn & ->).
      destruct Hc as [[-> _]|[-> _]].
      * exists n. split; [lia|done].
      * exists (S n). split; [lia|]. by rewrite <- app_assoc.
    + destruct Hc as [[-> _]|[-> _]];
        [exists 0%nat; simpl; rewrite app_nil_r; split; [lia|done]
        |exists 1%nat; split; [lia|done]].
Qed.

Lemma get_headers_keeps_listings : keeps listings Nest._get_headers.
Proof.
  unfold Nest._get_headers, Auth.get_auth_header, Auth.get_valid_token,
    Auth.needs_refresh, Auth.expired, Auth.refresh.
  keeps.
Qed.

Lemma list_devices_once_listings force s :
  (listings s <= listings (snd (Nest.list_devices_once force s))
   <= S (listings s))%nat.
Proof.
  assert (listings s <= listings (snd (Nest.fetch_devices s))
          <= S (listings s))%nat as Hf.
  { unfold Nest.fetch_devices, bind.
    pose proof (get_headers_keeps_listings s) as Hh.
    destruct (Nest._get_headers s) as [[h|e] s1]; simpl in *; [|lia].
    destruct (device_list _ _) as [status body|e]; simpl;
      [|unfold listings in *; simpl; lia].
    rewrite raise_for_status_spec. simpl.
    destruct (status_raises _ _); simpl; [unfold listings in *; simpl; lia|].
    destruct body; simpl; unfold listings in *; simpl; lia. }
  unfold Nest.list_devices_once, bind, get_sys.
  destruct (_devices_cache (nest_controller s)) as [[|d cache]|]; try done.
  destruct (negb force); simpl; [lia|done].
Qed.

Lemma retry_listings force more s :
  (listings (snd (Nest.retry_from more (Nest.list_devices_once force) s))
   <= listings s + S more)%nat.
Proof.
  revert s. induction more as [|more IH]; intros s;
    pose proof (list_devices_once_listings force s) as Ho;
    destruct (Nest.list_devices_once force s) as [[a|e] s1] eqn:Hb;
    simpl in Ho.
  1,3: rewrite (retry_from_ok _ _ _ _ _ Hb); simpl; lia.
  - rewrite (retry_from_raise _ _ _ _ _ Hb).
    destruct (Nest.retryable e); simpl; lia.
  - rewrite (retry_from_raise _ _ _ _ _ Hb).
    destruct (Nest.retryable e); simpl; [|lia].
    specialize (IH s1). lia.
Qed.

(** X13.  The attempt limit.  [set_thermostat_mode] posts at most three
    commands, all of them for the device and the mode it was called with;
    [list_devices] sends at most three listing requests. *)
Theorem at_most_three_attempts s :
  (forall device_id mode,
      exists n, (n <= 3)%nat
        /\ posts (snd (Nest.set_thermostat_mode device_id mode s))
           = posts s ++ replicate n (device_id, mode))
  /\ (forall force,
        (listings (snd (Nest.list_devices force s)) <= listings s + 3)%nat).
Proof.
  split.
  - intros device_id mode. apply retry_posts.
  - intros force. apply retry_listings.
Qed.

Lemma not_transient_after_retry {A} (body : M A) more s e :
  fst (Nest.retry_from more body s) = Raise e -> ~ transient e.
Proof.
  revert s. induction more as [|more IH]; intros s;
    destruct (body s) as [[a|e0] s1] eqn:Hb.
  1,3: by rewrite (retry_from_ok _ _ _ _ _ Hb).
  - rewrite (retry_from_raise _ _ _ _ _ Hb).
    destruct (Nest.retryable e0) eqn:E; simpl.
    + intros [= <-]. by intros [[st [=]]|[=]].
    + intros [= <-]. intros Ht%retryable_transient. congruence.
  - rewrite (retry_from_raise _ _ _ _ _ Hb).
    destruct (Nest.retryable e0) eqn:E; simpl.
    + apply IH.
    + intros [= <-]. intros Ht%retryable_transient. congruence.
Qed.

(** X14.  What the decorated calls raise: never an [HTTPStatusError] or a
    [ConnectError] as such.  After the last attempt such a failure reaches
    the caller wrapped in a [RetryError]; the other exceptions are those of
    a single attempt. *)
Theorem decorated_calls_wrap_transient s e :
  (forall device_id mode,
      fst (Nest.set_thermostat_mode device_id mode s) = Raise e ->
      ~ transient e)
  /\ (forall force,
        fst (Nest.list_devices force s) = Raise e -> ~ transient e).
Proof.
  split; intros; by eapply not_transient_after_retry.
Qed.

Lemma decorated_calls_wrap_transient_witness :
  ~ transient (RetryError (HTTPStatusError 401)).
Proof.
  apply (proj1 (decorated_calls_wrap_transient
                  (Sample.boot (Sample.world_with 401 (Fails ConnectError)) "")
                  (RetryError (HTTPStatusError 401))) "dev-a" "OFF").
  vm_compute. reflexivity.
Defined.

End Attempts.

Section FanOutPosts.

Import Env Obj Run Props.

Lemma individual_outcome_posts device_id s :
  exists n, (n <= 3)%nat
    /\ posts (snd (individual_outcome device_id s))
       = posts s ++ replicate n (device_id, "OFF").
Proof.
  destruct (retry_posts device_id "OFF" 2 s) as (n & Hn & Hp).
  exists n. split; [done|]. rewrite <- Hp.
  unfold individual_outcome, Nest.turn_off_thermostat, Nest.set_thermostat_mode,
    Nest.retry.
  by destruct (Nest.retry_from _ _ s) as [[b|e] s'].
Qed.

(** X15.  What the fan-out posts: only commands that set the mode ["OFF"],
    only for ids of the list, and at most three for each place of the
    list. *)
Theorem turn_off_thermostats_posts device_ids s :
  exists new,
    posts (snd (Nest.turn_off_thermostats device_ids s)) = posts s ++ new
    /\ (forall c, c ∈ new -> snd c = "OFF" /\ fst c ∈ device_ids)
    /\ (length new <= 3 * length device_ids)%nat.
Proof.
  unfold Nest.turn_off_thermostats. rewrite turn_off_loop_outcomes. simpl.
  revert s. induction device_ids as [|d ids IH]; intros s; simpl.
  - exists []. rewrite app_nil_r. split; [done|]. split; [|simpl; lia].
    intros c Hc. by apply elem_of_nil in Hc.
  - destruct (individual_outcome_posts d s) as (n & Hn & Hp).
    destruct (IH (snd (individual_outcome d s))) as (new & Hnew & Hall & Hlen).
    exists (replicate n (d, "OFF") ++ new).
    unfold state_after in *. simpl. rewrite Hnew, Hp, <- app_assoc.
    split; [done|]. split.
    + intros c [Hc|Hc]%elem_of_app.
      * apply elem_of_replicate in Hc as [-> _]. simpl. split; [done|].
        apply list_elem_of_here.
      * destruct (Hall c Hc) as [? ?]. split; [done|].
        by apply list_elem_of_further.
    + rewrite length_app, length_replicate. lia.
Qed.

End FanOutPosts.

(** * Further properties of the token manager *)

Section TokenMore.

Import Env Obj Run Props.

Lemma get_valid_token_state s :
  let r := Auth.get_valid_token s in
  match fst r with
  | Ok t => exists tok, t = Some tok /\ token (held (snd r)) = Some tok
  | Raise e =>
      e = RefreshError
      /\ held (snd r) = held s
      /\ _last_refresh (token_manager (snd r))
         = _last_refresh (token_manager s)
  end.
Proof.
  unfold held.
  unfold Auth.get_valid_token, Auth.needs_refresh, Auth.expired,
    Auth.refresh, Auth.set_credentials, Auth.set_last_refresh,
    Auth.SAFETY_MARGIN, timedelta_minutes, try_except, bind, get_sys,
    modify, ret, raise, read_clock, call_token_endpoint.
  cbv zeta.
  destruct (_credentials (token_manager s)) as [[[tok|] [x|]]|] eqn:Hc;
    simpl; rewrite ?Hc; simpl;
    repeat match goal with
           | |- context [if ?b then _ else _] => destruct b eqn:?; simpl
           | |- context [match token_endpoint ?w ?n with _ => _ end] =>
               destruct (token_endpoint w n) as [[? ?]|] eqn:?; simpl
           end;
    rewrite ?Hc; simpl; eauto.
Qed.

(** X16.  The header always carries a token: when [get_auth_header]
    returns, its value is ["Bearer "] followed by the token the credentials
    now hold; it is never made from a missing token. *)
Theorem get_auth_header_has_token s header :
  fst (Auth.get_auth_header s) = Ok header ->
  exists tok,
    header = "Bearer " +:+ tok
    /\ token (held (snd (Auth.get_auth_header s))) = Some tok.
Proof.
  unfold Auth.get_auth_header, bind.
  pose proof (get_valid_token_state s) as H. cbv zeta in H.
  destruct (Auth.get_valid_token s) as [[t|e] s1]; simpl in *; [|done].
  destruct H as (tok & -> & Ht). intros [= <-]. eauto.
Qed.

Lemma get_auth_header_has_token_witness :
  exists tok,
    "Bearer tok" = "Bearer " +:+ tok
    /\ token (held (snd (Auth.get_auth_header
                           (Sample.boot
                              (Sample.world_with 200 (Fails ConnectError)) ""))))
       = Some tok.
Proof.
  apply (get_auth_header_has_token
           (Sample.boot (Sample.world_with 200 (Fails ConnectError)) "")
           "Bearer tok").
  vm_compute. reflexivity.
Defined.

(** X17.  A failed refresh: the only exception [get_valid_token] raises is
    the one of the refresh exchange, and it then leaves the credentials and
    the time of the last refresh as they were. *)
Theorem get_valid_token_failure s e :
  fst (Auth.get_valid_token s) = Raise e ->
  e = RefreshError
  /\ next_refresh_reply s = None
  /\ held (snd (Auth.get_valid_token s)) = held s
  /\ _last_refresh (token_manager (snd (Auth.get_valid_token s)))
     = _last_refresh (token_manager s).
Proof.
  pose proof (get_valid_token_state s) as H. cbv zeta in H.
  destruct (get_valid_token_spec s) as [_ Hr]. intros He.
  rewrite He in H, Hr. destruct H as (-> & Hh & Hl).
  split; [done|]. split; [|done].
  destruct (must_refresh s); [|done].
  by destruct (next_refresh_reply s) as [[tok exp]|].
Qed.

Lemma get_valid_token_failure_witness :
  let s := Sample.failing_endpoint in
  held (snd (Auth.get_valid_token s)) = held s.
Proof.
  intros s.
  apply (get_valid_token_failure s RefreshError). vm_compute. reflexivity.
Defined.

End TokenMore.

(** * Properties of the settings *)

Section DeviceIdsSetting.

Import Text Env Obj Run Props.

Lemma lstrip_stops s : stops is_space (lstrip s) = true.
Proof.
  induction s as [|c s IH]; simpl; [done|].
  destruct (is_space c) eqn:E; [done|]. simpl. by rewrite E.
Qed.

Lemma lstrip_id s : stops is_space s = true -> lstrip s = s.
Proof.
  destruct s as [|c s]; simpl; [done|]. by intros ->%negb_true_iff.
Qed.

Lemma rstrip_stops s : stops is_space s = true -> stops is_space (rstrip s) = true.
Proof.
  destruct s as [|c s]; [done|]. intros Hc. simpl in Hc.
  apply negb_true_iff in Hc.
  change (rstrip (String c s))
    with (match rstrip s with
          | EmptyString =>
              if is_space c then EmptyString else String c EmptyString
          | r => String c r
          end).
  destruct (rstrip s); rewrite ?Hc; simpl; by rewrite ?Hc.
Qed.

Lemma rstrip_idem s : rstrip (rstrip s) = rstrip s.
Proof.
  induction s as [|c s IH]; simpl; [done|].
  destruct (rstrip s) as [|c' r] eqn:Hr.
  - destruct (is_space c) eqn:E; simpl; [done|]. by rewrite E.
  - change (rstrip (String c (String c' r)))
      with (match rstrip (String c' r) with
            | EmptyString =>
                if is_space c then EmptyString else String c EmptyString
            | r0 => String c r0
            end).
    by rewrite IH.
Qed.

Lemma strip_idem s : strip (strip s) = strip s.
Proof.
  unfold strip.
  rewrite (lstrip_id (rstrip (lstrip s)))
    by apply rstrip_stops, lstrip_stops.
  apply rstrip_idem.
Qed.

Lemma all_chars_lstrip cls s :
  all_chars cls s = true -> all_chars cls (lstrip s) = true.
Proof.
  induction s as [|c s IH]; simpl; [done|].
  intros [Hc Hs]%andb_true_iff.
  destruct (is_space c); [by apply IH|]. simpl. by rewrite Hc, Hs.
Qed.

Lemma all_chars_rstrip cls s :
  all_chars cls s = true -> all_chars cls (rstrip s) = true.
Proof.
  induction s as [|c s IH]; simpl; [done|].
  intros [Hc Hs]%andb_true_iff. specialize (IH Hs).
  destruct (rstrip s) as [|c' r].
  - destruct (is_space c); simpl; [done|]. by rewrite Hc.
  - simpl in *. by rewrite Hc, IH.
Qed.

Lemma split_from_no_sep acc s piece :
  all_chars not_comma acc = true ->
  piece ∈ split_from "," acc s -> all_chars not_comma piece = true.
Proof.
  revert acc. induction s as [|c s IH]; intros acc Hacc; simpl.
  - by intros ->%list_elem_of_singleton.
  - destruct (same_char c ",") eqn:E.
    + intros [->|H]%elem_of_cons; [done|]. by apply (IH "").
    + apply IH. rewrite all_chars_app, Hacc. simpl.
      unfold not_comma. by rewrite E.
Qed.

(** X18.  The configured device ids: an empty setting gives no id; no id
    of the list is empty, none has white space at either end, none has a
    comma in it. *)
Theorem device_ids_list_clean st :
  (nest_device_ids st = "" -> Main.device_ids_list st = [])
  /\ forall d, d ∈ Main.device_ids_list st ->
       d <> "" /\ strip d = d /\ all_chars not_comma d = true.
Proof.
  unfold Main.device_ids_list. split; [by intros ->|].
  intros d. destruct (nest_device_ids st) as [|c ids] eqn:Hs.
  { by intros ?%elem_of_nil. }
  intros [Hin Hne]%list_elem_of_In%List.filter_In.
  apply list_elem_of_In, list_elem_of_fmap in Hin as (piece & -> & Hp).
  split; [|split].
  - apply negb_true_iff, bool_decide_eq_false in Hne. done.
  - apply strip_idem.
  - unfold strip. apply all_chars_rstrip, all_chars_lstrip.
    by apply (split_from_no_sep "" (String c ids)).
Qed.

Lemma device_ids_list_clean_witness :
  Main.device_ids_list (Sample.the_settings "") = []
  /\ strip "dev-b" = "dev-b".
Proof.
  destruct (device_ids_list_clean (Sample.the_settings "")) as [H0 _].
  destruct (device_ids_list_clean (Sample.the_settings " dev-a ,, dev-b "))
    as [_ H].
  split.
  - apply H0. reflexivity.
  - apply (H "dev-b"). vm_compute. apply list_elem_of_further, list_elem_of_here.
Defined.

End DeviceIdsSetting.

(** * Further properties of the orchestrator *)

Section ListingFailure.

Import Poller Env Obj Run Props.

Lemma list_devices_keeps_posts force : keeps posts (Nest.list_devices force).
Proof.
  unfold Nest.list_devices, Nest.retry, Nest.list_devices_once,
    Nest.fetch_devices, Nest._get_headers, Auth.get_auth_header,
    Auth.get_valid_token, Auth.needs_refresh, Auth.expired, Auth.refresh.
  keeps.
Qed.

(** X19.  A listing that fails: [process_checkout_event] raises the
    exception of [list_devices] as it is; the event is not marked, no
    command is posted, no notification is sent and no action is recorded,
    so the event comes up again at the next tick. *)
Theorem process_checkout_event_listing_fails event s e s1 :
  Nest.list_devices false s = (Raise e, s1) ->
  Main.process_checkout_event event s = (Raise e, s1)
  /\ calendar_poller s1 = calendar_poller s
  /\ posts s1 = posts s
  /\ notifications (trace s1) = notifications (trace s)
  /\ globals s1 = globals s.
Proof.
  intros Hl.
  pose proof (list_devices_keeps calendar_poller
                (fun _ _ => eq_refl) (fun _ _ => eq_refl) (fun _ _ => eq_refl)
                false s) as Hp.
  pose proof (list_devices_keeps globals
                (fun _ _ => eq_refl) (fun _ _ => eq_refl) (fun _ _ => eq_refl)
                false s) as Hg.
  pose proof (list_devices_keeps_posts false s) as Hc.
  assert (keeps (fun s => notifications (trace s)) (Nest.list_devices false))
    as Hn.
  { unfold Nest.list_devices, Nest.retry, Nest.list_devices_once,
      Nest.fetch_devices, Nest._get_headers, Auth.get_auth_header,
      Auth.get_valid_token, Auth.needs_refresh, Auth.expired, Auth.refresh.
    keeps. }
  specialize (Hn s). rewrite Hl in Hp, Hg, Hc, Hn. simpl in *.
  unfold Main.process_checkout_event, bind. by rewrite Hl.
Qed.

(** The listing is refused with 401 three times: the event is not marked. *)
Lemma process_checkout_event_listing_fails_witness :
  let s := Sample.boot Sample.refusing_world "" in
  let r := Nest.list_devices false s in
  calendar_poller (snd r) = calendar_poller s /\ posts (snd r) = posts s.
Proof.
  intros s r.
  destruct (process_checkout_event_listing_fails (Sample.event "R1" true) s
              (RetryError (HTTPStatusError 401)) (snd r))
    as (_ & Hp & Hc & _).
  - vm_compute. reflexivity.
  - split; [exact Hp|exact Hc].
Defined.

End ListingFailure.

Section Actionable.

Import Poller Env Obj Run Props.

(** What [get_actionable_checkouts] gives: it returns; the ledger it leaves
    is the one cleaned up at the first reading of the clock; the events are
    unmarked, triggered events of [parse_events] at the second reading. *)
Lemma get_actionable_checkouts_spec buffer_minutes s :
  let r := Main.get_actionable_checkouts buffer_minutes s in
  let cp := Poller.cleanup_old_processed
              (clock (world s) (clock_reads (trace s)))
              DEFAULT_MAX_AGE_HOURS (calendar_poller s) in
  calendar_poller (snd r) = cp
  /\ exists events,
       fst r = Ok events
       /\ forall e, e ∈ events ->
            has_trigger_keyword e = true
            /\ reservation_id e ∉ _processed_events cp
            /\ exists calendar,
                 e ∈ Poller.parse_events cp
                       (clock (world s) (S (clock_reads (trace s))))
                       calendar buffer_minutes.
Proof.
  cbv zeta.
  destruct (Main.get_actionable_checkouts buffer_minutes s) as [res s']
    eqn:Hr.
  revert Hr.
  unfold Main.get_actionable_checkouts, bind at 1, Main.cleanup_old_processed,
    bind at 1, read_clock, modify. simpl.
  unfold bind at 1. rewrite fetch_calendar_spec. simpl.
  destruct (match next_feed_reply _ with
            | Response status (Some calendar) =>
                if status_raises _ status then None else Some calendar
            | _ => None
            end) as [calendar|].
  - unfold Main.parse_events, bind, read_clock, get_sys. simpl.
    intros [= <- <-]. simpl.
    split; [done|]. eexists. split; [reflexivity|].
    intros e [He Hu]%elem_of_filter_unprocessed.
    apply list_elem_of_In, List.filter_In in He as [He Ht].
    apply list_elem_of_In in He. eauto.
  - simpl. intros [= <- <-]. simpl. split; [done|]. exists [].
    split; [done|]. by intros e ?%elem_of_nil.
Qed.


(** X21.  No second surfacing: an id marked at [T] is in no event that
    [get_actionable_checkouts] returns, as long as the clock of its cleanup
    reads no more than 24 hours after [T]. *)
Theorem marked_event_not_surfaced buffer_minutes s res_id T :
  res_id ∈ _processed_events (calendar_poller s) ->
  _processed_timestamps (calendar_poller s) !! res_id = Some T ->
  clock (world s) (clock_reads (trace s)) <= T + 24 * HOUR ->
  exists events,
    fst (Main.get_actionable_checkouts buffer_minutes s) = Ok events
    /\ forall e, e ∈ events -> reservation_id e <> res_id.
Proof.
  intros Hin HT Hle.
  destruct (get_actionable_checkouts_spec buffer_minutes s)
    as (_ & events & Hr & Hall).
  exists events. split; [done|]. intros e He Heq.
  destruct (Hall e He) as (_ & Hu & _). apply Hu. rewrite Heq.
  apply elem_of_cleanup. split; [done|].
  intros (t & Ht & Hlt)%elem_of_to_remove.
  rewrite HT in Ht. injection Ht as <-.
  unfold timedelta_hours, DEFAULT_MAX_AGE_HOURS in Hlt. lia.
Qed.

(** The checkout of the samples was processed at noon; at the next tick,
    the same feed surfaces nothing. *)
Lemma marked_event_not_surfaced_witness :
  let s := with_calendar_poller
             (mark_processed Sample.noon (Sample.event "ABC123" true)
                Sample.poller)
             (Sample.boot
                (Sample.world_with 200
                   (Response 200 (Some {| walk := [Sample.checkout_entry] |})))
                "") in
  exists events,
    fst (Main.get_actionable_checkouts 30 s) = Ok events
    /\ forall e, e ∈ events -> reservation_id e <> "ABC123".
Proof.
  intros s.
  apply (marked_event_not_surfaced 30 s "ABC123" Sample.noon).
  - apply (bool_decide_unpack _). vm_compute. exact I.
  - vm_compute. reflexivity.
  - vm_compute. discriminate.
Defined.

End Actionable.

Section ActionRecord.

Import Poller Env Obj Run Props.

Lemma list_devices_keeps_notes force : keeps notes (Nest.list_devices force).
Proof.
  unfold Nest.list_devices, Nest.retry, Nest.list_devices_once,
    Nest.fetch_devices, Nest._get_headers, Auth.get_auth_header,
    Auth.get_valid_token, Auth.needs_refresh, Auth.expired, Auth.refresh.
  keeps.
Qed.

Lemma turn_off_thermostat_keeps_notes device_id :
  keeps notes (Nest.turn_off_thermostat device_id).
Proof.
  unfold Nest.turn_off_thermostat, Nest.set_thermostat_mode, Nest.retry,
    Nest.set_thermostat_mode_once, Nest._get_headers, Auth.get_auth_header,
    Auth.get_valid_token, Auth.needs_refresh, Auth.expired, Auth.refresh.
  keeps.
Qed.

Lemma state_after_keeps_notes device_ids s :
  notes (state_after device_ids s) = notes s.
Proof.
  revert s. induction device_ids as [|d ids IH]; intros s; simpl; [done|].
  unfold state_after in *. simpl. rewrite IH.
  unfold individual_outcome.
  pose proof (turn_off_thermostat_keeps_notes d s) as H.
  by destruct (Nest.turn_off_thermostat d s) as [[b|e] s'].
Qed.

Lemma count_true_le results :
  (Main.count_true results <= PyDict.len results)%nat.
Proof.
  unfold Main.count_true, PyDict.len, PyDict.values.
  rewrite <- (length_fmap snd results). apply List.filter_length_le.
Qed.

(** The action on an event with target devices. *)
Lemma process_checkout_event_action event s devices s1 d rest :
  Nest.list_devices false s = (Ok devices, s1) ->
  resolved_device_ids (settings s) devices = d :: rest ->
  let results := PyDict.fill [] (outcomes (d :: rest) s1) in
  let r := Main.process_checkout_event event s in
  fst r = Ok (action_of event results)
  /\ last_action_result (globals (snd r)) = Some (action_of event results)
  /\ notes (snd r)
     = notes s ++ (if Main.is_configured (settings s)
                   then [note_of event devices results] else []).
Proof.
  intros Hl Hids. cbv zeta.
  pose proof (list_devices_keeps_settings false s) as Hs.
  pose proof (list_devices_keeps_notes false s) as Hn.
  rewrite Hl in Hs, Hn. simpl in Hs, Hn.
  pose proof (state_after_keeps_notes (d :: rest) s1) as Hn2.
  rewrite Hn in Hn2. clear Hn.
  destruct (Main.process_checkout_event event s) as [res s'] eqn:Hr.
  revert Hr.
  unfold Main.process_checkout_event, bind at 1. rewrite Hl.
  unfold bind at 1, get_sys. rewrite Hs.
  unfold resolved_device_ids in Hids.
  set (ids := match Main.device_ids_list (settings s) with
              | [] => map device_id devices
              | _ :: _ => Main.device_ids_list (settings s)
              end).
  assert (ids = d :: rest) as ->.
  { subst ids. by destruct (Main.device_ids_list (settings s)). }
  unfold bind at 1, Nest.turn_off_thermostats.
  rewrite turn_off_loop_outcomes.
  set (s2 := state_after (d :: rest) s1) in *.
  set (results := PyDict.fill [] (outcomes (d :: rest) s1)).
  unfold bind, Main.mark_processed, Main.set_last_action, modify, read_clock.
  simpl.
  unfold notes in *.
  destruct (Main.is_configured (settings s)); simpl.
  - unfold try_except, Main.send_thermostat_notification, bind, call_sink.
    simpl. destruct (sink _ _) as [[]|]; simpl; intros [= <- <-]; simpl;
      by rewrite Hn2.
  - intros [= <- <-]. simpl. by rewrite Hn2, app_nil_r.
Qed.

End ActionRecord.

Section ActionClaims.

Import Poller Env Obj Run Props.

Lemma process_checkout_event_raises event s e s1 :
  Nest.list_devices false s = (Raise e, s1) ->
  Main.process_checkout_event event s = (Raise e, s1).
Proof. intros Hl. unfold Main.process_checkout_event, bind. by rewrite Hl. Qed.

Lemma process_checkout_event_no_target event s devices s1 :
  Nest.list_devices false s = (Ok devices, s1) ->
  resolved_device_ids (settings s) devices = [] ->
  Main.process_checkout_event event s = (Ok NoThermostatsFound, s1).
Proof.
  intros Hl Hids.
  pose proof (list_devices_keeps_settings false s) as Hs.
  rewrite Hl in Hs. simpl in Hs.
  unfold Main.process_checkout_event, bind at 1. rewrite Hl.
  unfold bind at 1, get_sys. rewrite Hs.
  unfold resolved_device_ids in Hids.
  destruct (Main.device_ids_list (settings s)) as [|d l]; [|done].
  by rewrite Hids.
Qed.

(** X22.  The record of an action: when [process_checkout_event] returns
    the record of an action, the record names the event, the number of
    thermostats turned off is the number of true entries of the results,
    the two counts add up to the number of entries, and the same record is
    what [last_action_result] now holds. *)
Theorem action_is_recorded event s a b off failed results :
  fst (Main.process_checkout_event event s) = Ok (Action a b off failed results) ->
  a = reservation_id event
  /\ b = property_name event
  /\ off = Main.count_true results
  /\ (off + failed)%nat = PyDict.len results
  /\ last_action_result (globals (snd (Main.process_checkout_event event s)))
     = Some (Action a b off failed results).
Proof.
  destruct (Nest.list_devices false s) as [[devices|e] s1] eqn:Hl.
  - destruct (resolved_device_ids (settings s) devices) as [|d rest] eqn:Hids.
    + by rewrite (process_checkout_event_no_target _ _ _ _ Hl Hids).
    + destruct (process_checkout_event_action event _ _ _ _ _ Hl Hids)
        as (Hr & Hg & _).
      remember (PyDict.fill [] (outcomes (d :: rest) s1)) as R.
      rewrite Hr, Hg. unfold action_of. intros [= <- <- <- <- <-].
      pose proof (count_true_le R).
      repeat split; try done. lia.
  - by rewrite (process_checkout_event_raises _ _ _ _ Hl).
Qed.

Lemma action_is_recorded_witness :
  let s := Sample.boot (Sample.world_with 400 (Fails ConnectError)) "" in
  (0 + 2)%nat = PyDict.len [("dev-a", false); ("dev-b", false)].
Proof.
  intros s.
  apply (action_is_recorded (Sample.event "R1" true) s "R1" "Beach House"
           0 2 [("dev-a", false); ("dev-b", false)]).
  vm_compute. reflexivity.
Defined.



End ActionClaims.

Section Tick.

Import Poller Env Obj Run Props.

Lemma for_each_contained events s :
  for_each events
    (fun event =>
       try_except (bind (Main.process_checkout_event event) (fun _ => ret tt))
         (fun _ => ret tt)) s
  = (Ok tt, processed_all events s).
Proof.
  revert s. induction events as [|e events IH]; intros s; simpl; [done|].
  unfold bind at 1, try_except at 1, bind at 1.
  unfold processed_all in *. simpl.
  destruct (Main.process_checkout_event e s) as [[a|x] s1]; simpl; apply IH.
Qed.

(** X24.  Failure containment in a tick: [poll_calendar_job] never raises;
    it processes every event that [get_actionable_checkouts] returned, in
    order, each from the state the one before it left, whether that one
    returned or raised. *)
Theorem poll_calendar_job_processes_all s :
  exists events,
    let fetched :=
      Main.get_actionable_checkouts
        (checkout_buffer_minutes (settings s)) (tick_start s) in
    fst fetched = Ok events
    /\ Main.poll_calendar_job s = (Ok tt, processed_all events (snd fetched)).
Proof.
  destruct (get_actionable_checkouts_spec
              (checkout_buffer_minutes (settings s)) (tick_start s))
    as (_ & events & Hr & _).
  exists events. cbv zeta. split; [done|].
  unfold Main.poll_calendar_job. unfold bind at 1. unfold read_clock at 1.
  cbv beta iota. unfold bind at 1.
  unfold Main.set_last_poll_time at 1, modify at 1. cbv beta iota.
  change (with_globals _ (with_trace _ s)) with (tick_start s).
  unfold try_except at 1, bind at 1, get_sys at 1. cbv beta iota.
  change (settings (tick_start s)) with (settings s).
  unfold bind at 1.
  destruct (Main.get_actionable_checkouts _ (tick_start s)) as [res s1].
  simpl in Hr. subst res. simpl snd.
  destruct events as [|e events]; [done|].
  by rewrite for_each_contained.
Qed.

End Tick.

Section TokenWithoutExpiry.

Import Env Obj Run Props.

(** X25.  A token without an expiry is never refreshed: when the
    credentials hold a token and no expiry, [get_valid_token] returns the
    token and leaves the state as it is; the clock is not read and no
    exchange is made. *)
Theorem token_without_expiry tok s :
  _credentials (token_manager s) = Some {| token := Some tok; expiry := None |} ->
  Auth.get_valid_token s = (Ok (Some tok), s).
Proof.
  intros Hc.
  unfold Auth.get_valid_token, Auth.needs_refresh, Auth.expired, bind, get_sys.
  rewrite Hc. simpl. by rewrite Hc.
Qed.

Lemma token_without_expiry_witness :
  let s := Sample.holding (Sample.world_with 200 (Fails ConnectError)) None in
  Auth.get_valid_token s = (Ok (Some "old"), s).
Proof. intros s. apply (token_without_expiry "old" s). reflexivity. Defined.

End TokenWithoutExpiry.

(** * Case of the letters, the address of the feed, the status of a device *)

Section CaseAndAddress.

Import Text Poller Env Obj Run Props.

Lemma upper_lower_char c : upper_char (lower_char c) = upper_char c.
Proof. destruct c as [[] [] [] [] [] [] [] []]; vm_compute; reflexivity. Qed.

Lemma lower_upper_char c : lower_char (upper_char c) = lower_char c.
Proof. destruct c as [[] [] [] [] [] [] [] []]; vm_compute; reflexivity. Qed.

Lemma upper_lower s : upper (lower s) = upper s.
Proof.
  unfold upper, lower. induction s as [|c s IH]; simpl; [done|].
  by rewrite upper_lower_char, IH.
Qed.

Lemma lower_upper s : lower (upper s) = lower s.
Proof.
  unfold upper, lower. induction s as [|c s IH]; simpl; [done|].
  by rewrite lower_upper_char, IH.
Qed.

(** X26.  The case of the letters does not matter: the trigger keyword is
    found whatever the case of the keyword and of the description, and the
    checkout indicator whatever the case of the summary. *)
Theorem matching_ignores_case keyword description summary :
  has_trigger (lower keyword) description = has_trigger keyword description
  /\ has_trigger keyword (lower description) = has_trigger keyword description
  /\ is_checkout (upper summary) = is_checkout summary.
Proof.
  unfold has_trigger, is_checkout.
  by rewrite !upper_lower, !lower_upper.
Qed.

Lemma replace_absent old new s :
  contains old s = false -> replace_from 0 old new s = s.
Proof.
  induction s as [|c s IH]; simpl; [done|].
  destruct (starts_with old (String c s)); simpl; [done|].
  intros H. by rewrite IH.
Qed.

(** X27.  The address of the feed: an address that does not contain
    ["webcal://"] is kept as it is, and in an address that starts with it
    and does not contain it again the scheme becomes ["https://"]; the new
    poller has nothing marked. *)
Theorem init_rewrites_webcal url keyword :
  contains "webcal://" url = false ->
  ical_url (init url keyword) = url
  /\ ical_url (init ("webcal://" +:+ url) keyword) = "https://" +:+ url
  /\ _processed_events (init url keyword) = ∅.
Proof.
  intros H. unfold init, replace. simpl ical_url.
  split; [by apply replace_absent|]. split; [|done].
  change (replace_from 0 "webcal://" "https://" ("webcal://" +:+ url))
    with ("https://" +:+ replace_from 0 "webcal://" "https://" url).
  by rewrite replace_absent.
Qed.

Lemma init_rewrites_webcal_witness :
  ical_url (init ("webcal://" +:+ "example.test/checkouts.ics")
              DEFAULT_TRIGGER_KEYWORD)
  = "https://" +:+ "example.test/checkouts.ics".
Proof.
  apply (init_rewrites_webcal "example.test/checkouts.ics"
           DEFAULT_TRIGGER_KEYWORD).
  reflexivity.
Defined.



End CaseAndAddress.
